(** * Risu: resource builder, action dispatch and API routing (src/src/resource.ts)

    A shallow embedding of [ResourceBuilder] and [BaseResource].

    - JS values are [jsval]; numbers are modelled as integers.
    - The builder's and resource's mutable structures (the action object
      [_actions], the route object [_apis] and the notifier [Map]) live in a
      [heap] and are shared by reference, as in the source: [setContext]
      passes [this._actions] on, [build] passes all three on.
    - A plain JS object used as a dictionary ([_actions], [_apis]) is a gmap
      of its own properties, with lookup falling back to the members of
      [Object.prototype] ([js_get]).
    - The action object's prototype is kept in the heap as well:
      [createAction("__proto__", f)] runs the [__proto__] setter of
      [Object.prototype] and makes the function [f] the prototype, after which
      reads and writes of [this._actions[name]] go through [f]'s own
      properties and those of [Function.prototype] ([act_props]), some of them
      read-only.  For the route object the same setter makes the stored entry
      [{method, route, action}] the prototype; a later [getApi] reads there
      only properties that are strings or [Object.prototype] members, which it
      rejects as it rejects any non-entry, so [_apis] is kept as its own
      properties only.
    - An asynchronous call is a computation in the monad [M]: a trace of
      observable events and an outcome (fulfilled value or rejection).  The
      order in which the promises given to [Promise.all] settle is chosen by
      the environment and passed in as a schedule. *)

From stdpp Require Import base gmap strings list.
From Stdlib Require Import ZArith.

Open Scope string_scope.

(** ** JS values, errors and promises *)

Inductive jsval : Type :=
| JUndefined
| JNull
| JBool (b : bool)
| JNum (n : Z)
| JStr (s : string)
| JObj (id : nat)            (** an object, by reference *)
| JWrapper (v : jsval).      (** [Object(v)] for a primitive [v] *)

(** [x || d] takes [d] exactly when [x] is falsy. *)
Definition truthy (v : jsval) : bool :=
  match v with
  | JUndefined | JNull => false
  | JBool b => b
  | JNum n => negb (Z.eqb n 0)
  | JStr s => negb (String.eqb s "")
  | JObj _ | JWrapper _ => true
  end.

Definition is_object (v : jsval) : bool :=
  match v with JObj _ | JWrapper _ => true | _ => false end.

(** What a JS function can throw: [new Error(msg)], an engine [TypeError] or
    [EvalError], or any value thrown by caller-supplied code. *)
Inductive jserror : Type :=
| Error (msg : string)
| TypeError
| EvalError
| Thrown (v : jsval).

(** How a promise (or an awaited plain value) settles. *)
Inductive presult : Type :=
| Fulfilled (v : jsval)
| Rejected (e : jserror).

(** ** Function objects *)

(** The value of a property of a function object: a non-callable value, or
    a function, given by what calling it as [fn(ctx, ...args)] (a plain call,
    [this] undefined) produces. *)
Inductive fnval : Type :=
| FnPrim (v : jsval)
| FnCallable (call : jsval -> list jsval -> presult).

(** A property of a function object: a data property, writable or not, or
    an accessor, given by what its getter returns or throws and by its setter
    ([None]: the setter returns normally; [Some e]: it throws [e], as a
    missing setter does in strict code). *)
Inductive fnprop : Type :=
| FnData (writable : bool) (v : fnval)
| FnAccessor (get : fnval + jserror) (set : option jserror).

(** [type Action<Context, Input, Output> = (context, ...args) => Promise<Output>].
    An action is a function object: [act_call] is what calling it produces
    (a synchronous throw of the body is a [Rejected] outcome as well, since
    both are awaited inside an [async] function); [act_props] gives the
    string-keyed properties it finds on itself and on its prototype chain
    above [Object.prototype] ([None]: the lookup goes on to
    [Object.prototype]). *)
Record Action : Type := mkAction {
  act_call :> jsval -> list jsval -> presult;
  act_props : string -> option fnprop
}.

(** [type Method = "GET" | "POST" | "PUT" | "DELETE"] *)
Inductive Method : Type := GET | POST | PUT | DELETE.

Definition method_eqb (m1 m2 : Method) : bool :=
  match m1, m2 with
  | GET, GET | POST, POST | PUT, PUT | DELETE, DELETE => true
  | _, _ => false
  end.

Definition method_str (m : Method) : string :=
  match m with GET => "GET" | POST => "POST" | PUT => "PUT" | DELETE => "DELETE" end.

(** [type Api = { method; route; action }] *)
Record Api : Type := mkApi {
  api_method : Method;
  api_route : string;
  api_action : string
}.

(** A notifier is a function reference; a [Set] compares references.  What
    calling a reference does is given by an implementation map [nimpl]: a
    synchronous throw, or a returned value, which [Promise.all] treats as a
    promise that settles as [p] (a plain return value settles fulfilled). *)
Definition nref : Type := nat.

Inductive nret : Type :=
| NThrows (e : jserror)
| NReturns (p : presult).

(** ** The members of [Object.prototype] *)

Inductive proto_member : Type :=
| PM_constructor | PM_toString | PM_toLocaleString | PM_valueOf
| PM_hasOwnProperty | PM_isPrototypeOf | PM_propertyIsEnumerable
| PM___proto__ | PM___defineGetter__ | PM___defineSetter__
| PM___lookupGetter__ | PM___lookupSetter__.

Definition object_prototype (k : string) : option proto_member :=
  match k with
  | "constructor" => Some PM_constructor
  | "toString" => Some PM_toString
  | "toLocaleString" => Some PM_toLocaleString
  | "valueOf" => Some PM_valueOf
  | "hasOwnProperty" => Some PM_hasOwnProperty
  | "isPrototypeOf" => Some PM_isPrototypeOf
  | "propertyIsEnumerable" => Some PM_propertyIsEnumerable
  | "__proto__" => Some PM___proto__
  | "__defineGetter__" => Some PM___defineGetter__
  | "__defineSetter__" => Some PM___defineSetter__
  | "__lookupGetter__" => Some PM___lookupGetter__
  | "__lookupSetter__" => Some PM___lookupSetter__
  | _ => None
  end.

(** A property read [o[k]]: an own property, a member of [Object.prototype],
    a property found on the chain of a function [o] has as prototype, or the
    [__proto__] getter of [Object.prototype] returning that function. *)
Inductive jsprop (V : Type) : Type :=
| Own (v : V)
| Inherited (m : proto_member)
| FromFunction (p : fnprop)
| ProtoGetter (v : V).
Arguments Own {V} v.
Arguments Inherited {V} m.
Arguments FromFunction {V} p.
Arguments ProtoGetter {V} v.

(** [o[k]] on a plain object whose prototype is [Object.prototype]. *)
Definition js_get {V : Type} (o : gmap string V) (k : string) : option (jsprop V) :=
  match o !! k with
  | Some v => Some (Own v)
  | None => Inherited <$> object_prototype k
  end.

(** [Object(v)]; a resource's context is truthy, so [undefined] and [null]
    (for which [Object] makes a fresh object) do not occur. *)
Definition Object_coerce (v : jsval) : jsval :=
  if is_object v then v else JWrapper v.

(** Calling a member of [Object.prototype] as [action(ctx, ...args)]: a
    plain call in strict (module/class) code, so [this] is [undefined].
    [None]: the value is not callable ([__proto__] reads [Object.prototype]
    itself), so the call throws a [TypeError]. *)
Definition proto_call (m : proto_member) (ctx : jsval) (args : list jsval)
  : option presult :=
  match m with
  | PM_constructor => Some (Fulfilled (Object_coerce ctx))
  | PM_toString => Some (Fulfilled (JStr "[object Undefined]"))
  | PM_isPrototypeOf =>
      (* step 1: a non-object argument gives false; then ToObject(this) *)
      Some (if is_object ctx then Rejected TypeError else Fulfilled (JBool false))
  | PM___proto__ => None
  | _ => Some (Rejected TypeError)      (* ToObject(undefined) / GetV(undefined) *)
  end.

(** ** A trace-and-error monad for asynchronous calls *)

Inductive event : Type :=
| EvCall (name : string) (ctx : jsval) (args : list jsval)  (** the looked-up action is invoked *)
| EvNotify (n : nref) (v : jsval)                           (** notifier [n] is invoked with [v] *)
| EvSettled (n : nref).                                     (** the promise of notifier [n] settles *)

Definition M (A : Type) : Type := (list event * (A + jserror))%type.

Definition ret {A : Type} (x : A) : M A := ([], inl x).
Definition throw {A : Type} (e : jserror) : M A := ([], inr e).
Definition emit (ev : event) : M unit := ([ev], inl tt).

Definition bind {A B : Type} (m : M A) (k : A -> M B) : M B :=
  match m with
  | (t, inl x) => let '(t', r) := k x in ((t ++ t')%list, r)
  | (t, inr e) => (t, inr e)
  end.

Notation "'let!' x := m 'in' k" := (bind m (fun x => k))
  (at level 200, x name, m at level 100, k at level 200).

(** [await p] *)
Definition await (p : presult) : M jsval :=
  match p with Fulfilled v => ret v | Rejected e => throw e end.

(** ** The heap of shared mutable structures *)

Definition loc : Type := nat.

(** Objects reachable from builders and resources: plain objects holding
    actions ([_actions]), with the function each one has as prototype once
    its [__proto__] was assigned ([h_action_protos]; no entry:
    [Object.prototype]), plain objects holding routes ([_apis]) and
    [Map<name, Set<notifier>>] values ([_notifiers]); a [Set] is kept as the
    list of its elements in insertion order.  [h_next] is the next fresh
    identity, for these structures and for fresh context objects. *)
Record heap : Type := mkHeap {
  h_actions : gmap loc (gmap string Action);
  h_action_protos : gmap loc Action;
  h_apis : gmap loc (gmap string Api);
  h_notifiers : gmap loc (gmap string (list nref));
  h_next : loc
}.

Definition empty_heap : heap := mkHeap ∅ ∅ ∅ ∅ 0.

Definition obj_actions (h : heap) (l : loc) : gmap string Action :=
  default ∅ (h_actions h !! l).
Definition obj_apis (h : heap) (l : loc) : gmap string Api :=
  default ∅ (h_apis h !! l).
Definition obj_notifiers (h : heap) (l : loc) : gmap string (list nref) :=
  default ∅ (h_notifiers h !! l).

Definition set_actions (h : heap) (l : loc) (o : gmap string Action) : heap :=
  mkHeap (<[l := o]> (h_actions h)) (h_action_protos h) (h_apis h) (h_notifiers h) (h_next h).
Definition set_action_proto (h : heap) (l : loc) (f : Action) : heap :=
  mkHeap (h_actions h) (<[l := f]> (h_action_protos h)) (h_apis h) (h_notifiers h) (h_next h).
Definition set_apis (h : heap) (l : loc) (o : gmap string Api) : heap :=
  mkHeap (h_actions h) (h_action_protos h) (<[l := o]> (h_apis h)) (h_notifiers h) (h_next h).
Definition set_notifiers (h : heap) (l : loc) (o : gmap string (list nref)) : heap :=
  mkHeap (h_actions h) (h_action_protos h) (h_apis h) (<[l := o]> (h_notifiers h)) (h_next h).

(** The property [k] found on the chain of the function the action object
    [l] has as prototype, if it has one. *)
Definition fn_chain (h : heap) (l : loc) (k : string) : option fnprop :=
  match h_action_protos h !! l with
  | Some g => act_props g k
  | None => None
  end.

(** ** ResourceBuilder *)

(** The fields of a builder are never reassigned after its constructor; the
    objects they point to are mutated. *)
Record ResourceBuilder : Type := mkBuilder {
  b_name : string;
  b_context : jsval;
  b_actions : loc;
  b_apis : loc;
  b_notifiers : loc
}.

(** [constructor(name, context?, actions?)]: [_context = context || {}],
    [_actions = actions || {}], [_apis = {}] (field initializer),
    [_notifiers = new Map()].  An omitted [context] is [JUndefined]. *)
Definition new_ResourceBuilder (name : string) (context : jsval)
    (actions : option loc) (h : heap) : ResourceBuilder * heap :=
  let base := h_next h in
  let ctx := if truthy context then context else JObj base in
  let acts := default (S base) actions in
  let apis := S (S base) in
  let nots := S (S (S base)) in
  let h1 := mkHeap
    (match actions with Some _ => h_actions h | None => <[S base := ∅]> (h_actions h) end)
    (match actions with Some _ => h_action_protos h | None => delete (S base) (h_action_protos h) end)
    (<[apis := ∅]> (h_apis h))
    (<[nots := ∅]> (h_notifiers h))
    (S (S (S (S base)))) in
  (mkBuilder name ctx acts apis nots, h1).

(** [createResource(name)] *)
Definition createResource (name : string) (h : heap) : ResourceBuilder * heap :=
  new_ResourceBuilder name JUndefined None h.

(** [setContext(context)]: [new ResourceBuilder(this._name, context, this._actions)] *)
Definition setContext (b : ResourceBuilder) (context : jsval) (h : heap)
  : ResourceBuilder * heap :=
  new_ResourceBuilder (b_name b) context (Some (b_actions b)) h.

(** Where an assignment [o[k] = v] to an action object lands
    ([OrdinarySet] in strict code): the first property named [k] on the
    prototype chain decides. *)
Inductive set_outcome : Type :=
| SetOwn                    (** an own data property is created or overwritten *)
| SetPrototype              (** the [__proto__] setter of [Object.prototype]: [v] becomes the prototype *)
| SetIgnored                (** an inherited setter runs and returns normally *)
| SetThrows (e : jserror).  (** a read-only inherited property, or a throwing setter *)

Definition actions_set (h : heap) (l : loc) (k : string) : set_outcome :=
  match obj_actions h l !! k with
  | Some _ => SetOwn
  | None =>
      match fn_chain h l k with
      | Some (FnData true _) => SetOwn
      | Some (FnData false _) => SetThrows TypeError
      | Some (FnAccessor _ None) => SetIgnored
      | Some (FnAccessor _ (Some e)) => SetThrows e
      | None => if String.eqb k "__proto__" then SetPrototype else SetOwn
      end
  end.

(** [createAction(name, action)]: [this._actions[name] = action; return this];
    the assignment throws where [OrdinarySet] fails. *)
Definition createAction (b : ResourceBuilder) (name : string) (action : Action)
    (h : heap) : (ResourceBuilder * heap) + jserror :=
  let l := b_actions b in
  match actions_set h l name with
  | SetOwn => inl (b, set_actions h l (<[name := action]> (obj_actions h l)))
  | SetPrototype => inl (b, set_action_proto h l action)
  | SetIgnored => inl (b, h)
  | SetThrows e => inr e
  end.

(** [Set.prototype.add]: no effect on a reference already in the set. *)
Definition set_add (n : nref) (s : list nref) : list nref :=
  if bool_decide (n ∈ s) then s else s ++ [n].

(** [addNotifier(name, notifier)]:
    [if (!this._notifiers.has(name)) this._notifiers.set(name, new Set());
     this._notifiers.get(name)!.add(notifier); return this] *)
Definition addNotifier (b : ResourceBuilder) (name : string) (notifier : nref)
    (h : heap) : ResourceBuilder * heap :=
  let m := obj_notifiers h (b_notifiers b) in
  let m1 := match m !! name with Some _ => m | None => <[name := []]> m end in
  let s := default [] (m1 !! name) in
  (b, set_notifiers h (b_notifiers b) (<[name := set_add notifier s]> m1)).

(** [addApi(route, name, method = "GET")]:
    [this._apis[route] = { method, route, action: name }; return this] *)
Definition addApi (b : ResourceBuilder) (route name : string) (method : Method)
    (h : heap) : ResourceBuilder * heap :=
  (b, set_apis h (b_apis b)
        (<[route := mkApi method route name]> (obj_apis h (b_apis b)))).

(** ** BaseResource *)

Record BaseResource : Type := mkResource {
  r_name : string;
  r_context : jsval;
  r_actions : loc;
  r_notifiers : loc;
  r_apis : loc
}.

(** [build()]: [new BaseResource(this._name, this._context, this._actions,
    this._notifiers, this._apis)]; nothing is copied. *)
Definition build (b : ResourceBuilder) : BaseResource :=
  mkResource (b_name b) (b_context b) (b_actions b) (b_notifiers b) (b_apis b).

(** [getAction(name)]: [this._actions[name]], the property found by
    [OrdinaryGet]: an own action, else a property on the chain of the
    function that is the prototype, else [Object.prototype]'s [__proto__]
    getter (returning that function) or another of its members. *)
Definition getAction (r : BaseResource) (name : string) (h : heap)
  : option (jsprop Action) :=
  match obj_actions h (r_actions r) !! name with
  | Some f => Some (Own f)
  | None =>
      match fn_chain h (r_actions r) name with
      | Some p => Some (FromFunction p)
      | None =>
          match h_action_protos h !! r_actions r, String.eqb name "__proto__" with
          | Some g, true => Some (ProtoGetter g)
          | _, _ => Inherited <$> object_prototype name
          end
      end
  end.

Definition fnval_truthy (v : fnval) : bool :=
  match v with FnPrim w => truthy w | FnCallable _ => true end.

(** Reading the property found and testing [!action]: the exception of a
    throwing getter, or whether the value read is truthy.  Own actions, the
    members of [Object.prototype] and the prototype function are objects. *)
Definition read_truthy (p : jsprop Action) : bool + jserror :=
  match p with
  | Own _ | Inherited _ | ProtoGetter _ => inl true
  | FromFunction (FnData _ v) => inl (fnval_truthy v)
  | FromFunction (FnAccessor (inl v) _) => inl (fnval_truthy v)
  | FromFunction (FnAccessor (inr e) _) => inr e
  end.

Definition fnval_call (v : fnval) (ctx : jsval) (args : list jsval) : option presult :=
  match v with FnCallable c => Some (c ctx args) | FnPrim _ => None end.

(** Calling the value read by [getAction]; [None] when it is not callable. *)
Definition call_value (p : jsprop Action) (ctx : jsval) (args : list jsval)
  : option presult :=
  match p with
  | Own f => Some (f ctx args)
  | Inherited m => proto_call m ctx args
  | FromFunction (FnData _ v) => fnval_call v ctx args
  | FromFunction (FnAccessor (inl v) _) => fnval_call v ctx args
  | FromFunction (FnAccessor (inr _) _) => None
  | ProtoGetter g => Some (g ctx args)
  end.

(** [getApi(route, method)]:
    [const api = this._apis[route];
     if (!api || api.method !== method) return undefined; return api].
    A member inherited from [Object.prototype] has no [method] property, so
    [undefined !== method] holds for it. *)
Definition getApi (r : BaseResource) (route : string) (method : Method) (h : heap)
  : option Api :=
  match js_get (obj_apis h (r_apis r)) route with
  | Some (Own api) => if method_eqb (api_method api) method then Some api else None
  | _ => None
  end.

(** ** Dispatch *)

Section Dispatch.

(** What each notifier reference does when called with a result. *)
Variable nimpl : nref -> jsval -> nret.

(** [[...notifiers].map((fn) => fn(result))]: every notifier is called in
    set order; a synchronous throw stops the [map]. *)
Fixpoint invoke_notifiers (ns : list nref) (v : jsval) : M (list (nref * presult)) :=
  match ns with
  | [] => ret []
  | n :: ns' =>
      let! _ := emit (EvNotify n v) in
      match nimpl n v with
      | NThrows e => throw e
      | NReturns p =>
          let! ps := invoke_notifiers ns' v in
          ret ((n, p) :: ps)
      end
  end.

Fixpoint settlement_of (n : nref) (ps : list (nref * presult)) : option presult :=
  match ps with
  | [] => None
  | (m, p) :: ps' => if Nat.eqb n m then Some p else settlement_of n ps'
  end.

(** [Promise.all] waiting on the returned promises: they settle in the
    order [sched] chosen by the event loop; the first rejection rejects the
    whole, otherwise it fulfils once every promise has settled. *)
Fixpoint settle_all (sched : list nref) (ps : list (nref * presult)) : M unit :=
  match sched with
  | [] => ret tt
  | n :: sched' =>
      let! _ := emit (EvSettled n) in
      match settlement_of n ps with
      | Some (Rejected e) => throw e
      | _ => settle_all sched' ps
      end
  end.

(** [await Promise.all([...notifiers].map((fn) => fn(result)))] *)
Definition promise_all (ns : list nref) (v : jsval) (sched : list nref) : M unit :=
  let! ps := invoke_notifiers ns v in
  settle_all sched ps.

(** [callAction(name, ...args)]:
    [const action = this.getAction(name);
     if (!action) throw new Error(`Action ${String(name)} not found`);
     const result = await action(this._context, ...args);
     const notifiers = this._notifiers.get(name);
     if (notifiers?.size) await Promise.all([...notifiers].map((fn) => fn(result)));
     return result;] *)
Definition callAction (r : BaseResource) (name : string) (args : list jsval)
    (sched : list nref) (h : heap) : M jsval :=
  match getAction r name h with
  | None => throw (Error ("Action " ++ name ++ " not found"))
  | Some action =>
      match read_truthy action with
      | inr e => throw e
      | inl false => throw (Error ("Action " ++ name ++ " not found"))
      | inl true =>
          match call_value action (r_context r) args with
          | None => throw TypeError
          | Some res =>
              let! _ := emit (EvCall name (r_context r) args) in
              let! result := await res in
              match obj_notifiers h (r_notifiers r) !! name with
              | Some ((_ :: _) as notifiers) =>
                  let! _ := promise_all notifiers result sched in
                  ret result
              | _ => ret result
              end
          end
      end
  end.

(** [callApi(route, method, ...args)]:
    [const api = this.getApi(route, method);
     if (!api) throw new Error(`API ${String(route)} not found`);
     if (api.method !== method) throw new Error(`Method ${method} not allowed for API ${route}`);
     return this.callAction(api.action, ...args);] *)
Definition callApi (r : BaseResource) (route : string) (method : Method)
    (args : list jsval) (sched : list nref) (h : heap) : M jsval :=
  match getApi r route method h with
  | None => throw (Error ("API " ++ route ++ " not found"))
  | Some api =>
      if negb (method_eqb (api_method api) method)
      then throw (Error ("Method " ++ method_str method ++ " not allowed for API " ++ route))
      else callAction r (api_action api) args sched h
  end.

End Dispatch.

(** ** Sequences of builder calls *)

(** One chained builder call; the chain continues on the builder it returns. *)
Inductive builder_call : Type :=
| SetContext (context : jsval)
| CreateAction (name : string) (action : Action)
| AddNotifier (name : string) (notifier : nref)
| AddApi (route name : string) (method : Method).

Definition run_call (c : builder_call) (bh : ResourceBuilder * heap)
  : (ResourceBuilder * heap) + jserror :=
  let '(b, h) := bh in
  match c with
  | SetContext ctx => inl (setContext b ctx h)
  | CreateAction name f => createAction b name f h
  | AddNotifier name n => inl (addNotifier b name n h)
  | AddApi route name m => inl (addApi b route name m h)
  end.

(** A chain of builder calls; an exception ends it. *)
Fixpoint run_calls (cs : list builder_call) (bh : ResourceBuilder * heap)
  : (ResourceBuilder * heap) + jserror :=
  match cs with
  | [] => inl bh
  | c :: cs' =>
      match run_call c bh with
      | inl bh' => run_calls cs' bh'
      | inr e => inr e
      end
  end.

(** The state a chain of builder calls ends in, for chains that do not
    throw (the start state otherwise). *)
Definition final_state (cs : list builder_call) (bh : ResourceBuilder * heap)
  : ResourceBuilder * heap :=
  match run_calls cs bh with inl bh' => bh' | inr _ => bh end.


(** The notifier set registered for [name] in [r], [[]] when the map has
    no entry. *)
Definition notifier_set (r : BaseResource) (name : string) (h : heap) : list nref :=
  default [] (obj_notifiers h (r_notifiers r) !! name).

(** Number of invocations of notifier [n] in a trace. *)
Fixpoint notify_count (n : nref) (t : list event) : nat :=
  match t with
  | [] => 0
  | EvNotify m _ :: t' => (if Nat.eqb m n then 1 else 0) + notify_count n t'
  | _ :: t' => notify_count n t'
  end.

(** Invariants of the states reachable through builder calls: every notifier
    [Set] holds each reference once, and a builder's structures are
    allocated below [h_next]. *)
Definition notifiers_nodup (h : heap) : Prop :=
  forall l m k s, h_notifiers h !! l = Some m -> m !! k = Some s -> NoDup s.

Definition builder_allocated (b : ResourceBuilder) (h : heap) : Prop :=
  b_actions b < h_next h /\ b_apis b < h_next h /\ b_notifiers b < h_next h.

Definition reachable_inv (bh : ResourceBuilder * heap) : Prop :=
  notifiers_nodup bh.2 /\ builder_allocated bh.1 bh.2.

(** ** Sample actions and notifiers, for concrete runs *)

(** The string-keyed properties an [async] arrow function with [len]
    parameters, written directly as an argument (so its [name] is [""]),
    finds on its chain above [Object.prototype] (ECMA-262): its own read-only
    [length] and [name]; the read-only [constructor] of
    [AsyncFunction.prototype]; and from [Function.prototype] the writable
    [apply], [bind], [call] and [toString], which throw a [TypeError] when
    called with [this] undefined, and the [arguments] and [caller] accessors,
    whose getter and setter throw a [TypeError].  Calling [constructor]
    ([AsyncFunction]) compiles source text; the samples run in a host that
    refuses code generation from strings, where it throws an [EvalError]
    (for arguments whose string conversion does not itself throw). *)
Definition async_arrow_props (len : Z) (k : string) : option fnprop :=
  match k with
  | "length" => Some (FnData false (FnPrim (JNum len)))
  | "name" => Some (FnData false (FnPrim (JStr "")))
  | "constructor" => Some (FnData false (FnCallable (fun _ _ => Rejected EvalError)))
  | "apply" | "bind" | "call" | "toString" =>
      Some (FnData true (FnCallable (fun _ _ => Rejected TypeError)))
  | "arguments" | "caller" => Some (FnAccessor (inr TypeError) (Some TypeError))
  | _ => None
  end.

(** [async (_ctx, num) => num * 2] *)
Definition double_action : Action := {|
  act_call := fun _ args =>
    match args with JNum n :: _ => Fulfilled (JNum (2 * n)) | _ => Fulfilled JUndefined end;
  act_props := async_arrow_props 2
|}.

(** [async (_ctx, input) => input] *)
Definition echo_action : Action := {|
  act_call := fun _ args => match args with v :: _ => Fulfilled v | [] => Fulfilled JUndefined end;
  act_props := async_arrow_props 2
|}.

(** Notifier 1 throws; every other reference returns [undefined]. *)
Definition sample_notifiers : nref -> jsval -> nret :=
  fun n _ => if Nat.eqb n 1 then NThrows (Thrown (JStr "notifier failed"))
             else NReturns (Fulfilled JUndefined).

(** A builder chain: [double] with notifiers 2 and 3 (2 added twice),
    [echo] with the failing notifier 1, and a POST route to [double]. *)
Definition sample_calls : list builder_call :=
  [CreateAction "double" double_action; AddNotifier "double" 2;
   AddNotifier "double" 3; AddNotifier "double" 2;
   CreateAction "echo" echo_action; AddNotifier "echo" 1;
   AddApi "/double" "double" POST].

Definition sample_state : ResourceBuilder * heap :=
  final_state sample_calls (createResource "TestResource" empty_heap).

(** The same registrations, with [setContext] last or first. *)
Definition context_last_calls : list builder_call :=
  [CreateAction "create" echo_action; AddNotifier "create" 2;
   AddApi "/create" "create" POST; SetContext (JStr "db")].

Definition context_first_calls : list builder_call :=
  [SetContext (JStr "db"); CreateAction "create" echo_action;
   AddNotifier "create" 2; AddApi "/create" "create" POST].

(** Notifier 1 returns a promise that rejects; every other reference
    returns [undefined]. *)
Definition rejecting_notifiers : nref -> jsval -> nret :=
  fun n _ => if Nat.eqb n 1 then NReturns (Rejected (Thrown (JStr "rejected")))
             else NReturns (Fulfilled JUndefined).

(** [double] with notifiers 2, 1 and 3, in that order. *)
Definition three_notifier_calls : list builder_call :=
  [CreateAction "double" double_action; AddNotifier "double" 2;
   AddNotifier "double" 1; AddNotifier "double" 3].

Definition three_notifier_state : ResourceBuilder * heap :=
  final_state three_notifier_calls (createResource "TestResource" empty_heap).

(** [async () => { throw new Error("db down") }], with notifier 2 on it. *)
Definition failing_action : Action := {|
  act_call := fun _ _ => Rejected (Error "db down");
  act_props := async_arrow_props 0
|}.

Definition failing_state : ResourceBuilder * heap :=
  final_state [CreateAction "save" failing_action; AddNotifier "save" 2]
    (createResource "TestResource" empty_heap).

(** [createAction("__proto__", double)], then [double] as [run]: the action
    object gets [double] as its prototype. *)
Definition proto_calls : list builder_call :=
  [CreateAction "__proto__" double_action; CreateAction "run" double_action].

Definition proto_state : ResourceBuilder * heap :=
  final_state proto_calls (createResource "TestResource" empty_heap).

(** A builder call other than [setContext]. *)
Definition not_setContext (c : builder_call) : bool :=
  match c with SetContext _ => false | _ => true end.

(** Every route entry is stored under its own [route] field. *)
Definition routes_keyed (h : heap) : Prop :=
  forall l o k api, h_apis h !! l = Some o -> o !! k = Some api -> api_route api = k.

(** ** Basic facts *)

Lemma method_eqb_true (m1 m2 : Method) : method_eqb m1 m2 = true <-> m1 = m2.
Proof. destruct m1, m2; simpl; split; congruence. Qed.

Lemma method_eqb_refl (m : Method) : method_eqb m m = true.
Proof. by apply method_eqb_true. Qed.

Lemma bind_inl {A B : Type} (t : list event) (x : A) (k : A -> M B) :
  bind (t, inl x) k = ((t ++ fst (k x))%list, snd (k x)).
Proof. simpl. by destruct (k x). Qed.

Lemma bind_inr {A B : Type} (t : list event) (e : jserror) (k : A -> M B) :
  bind (t, inr e) k = (t, inr e).
Proof. reflexivity. Qed.

Lemma bind_ret {A B : Type} (x : A) (k : A -> M B) : bind (ret x) k = k x.
Proof. unfold ret. rewrite bind_inl. simpl. by destruct (k x). Qed.

Lemma bind_emit {B : Type} (ev : event) (k : unit -> M B) :
  bind (emit ev) k = (ev :: fst (k tt), snd (k tt)).
Proof. unfold emit. rewrite bind_inl. reflexivity. Qed.

Lemma obj_apis_set_apis (h : heap) (l l' : loc) (o : gmap string Api) :
  obj_apis (set_apis h l o) l' = if decide (l = l') then o else obj_apis h l'.
Proof.
  unfold obj_apis, set_apis; simpl.
  destruct (decide (l = l')) as [->|Hne].
  - by rewrite lookup_insert_eq.
  - by rewrite lookup_insert_ne.
Qed.

Lemma obj_actions_set_actions (h : heap) (l l' : loc) (o : gmap string Action) :
  obj_actions (set_actions h l o) l' = if decide (l = l') then o else obj_actions h l'.
Proof.
  unfold obj_actions, set_actions; simpl.
  destruct (decide (l = l')) as [->|Hne].
  - by rewrite lookup_insert_eq.
  - by rewrite lookup_insert_ne.
Qed.

Lemma obj_notifiers_set_notifiers (h : heap) (l l' : loc) (o : gmap string (list nref)) :
  obj_notifiers (set_notifiers h l o) l' = if decide (l = l') then o else obj_notifiers h l'.
Proof.
  unfold obj_notifiers, set_notifiers; simpl.
  destruct (decide (l = l')) as [->|Hne].
  - by rewrite lookup_insert_eq.
  - by rewrite lookup_insert_ne.
Qed.

(** [createAction] returns the same builder and touches only the action
    object and its prototype. *)
Lemma createAction_inl (b : ResourceBuilder) (name : string) (f : Action) (h : heap) b' h' :
  createAction b name f h = inl (b', h') ->
  b' = b /\ h_apis h' = h_apis h /\ h_notifiers h' = h_notifiers h /\ h_next h' = h_next h.
Proof.
  unfold createAction. destruct (actions_set h (b_actions b) name); intros [= <- <-]; done.
Qed.

(** On an action object whose prototype is [Object.prototype], every
    assignment but one to [__proto__] defines an own property. *)
Lemma actions_set_plain (h : heap) (l : loc) (name : string) :
  h_action_protos h !! l = None -> name <> "__proto__" -> actions_set h l name = SetOwn.
Proof.
  intros Hp Hn. unfold actions_set, fn_chain. rewrite Hp.
  destruct (obj_actions h l !! name); [done|].
  destruct (String.eqb_spec name "__proto__"); [contradiction|done].
Qed.

Lemma createAction_plain (b : ResourceBuilder) (name : string) (f : Action) (h : heap) :
  h_action_protos h !! b_actions b = None -> name <> "__proto__" ->
  createAction b name f h =
    inl (b, set_actions h (b_actions b) (<[name := f]> (obj_actions h (b_actions b)))).
Proof. intros Hp Hn. unfold createAction. by rewrite actions_set_plain. Qed.

(** ** The route table *)

(** A builder call that neither replaces the builder ([setContext]) nor
    rewrites [route]. *)
Definition keeps_route (route : string) (c : builder_call) : bool :=
  match c with
  | SetContext _ => false
  | AddApi route' _ _ => negb (String.eqb route' route)
  | _ => true
  end.

Lemma run_calls_keep_route (route : string) (cs : list builder_call) :
  forallb (keeps_route route) cs = true ->
  forall (b : ResourceBuilder) (h : heap) b' h',
    run_calls cs (b, h) = inl (b', h') ->
    b' = b /\ obj_apis h' (b_apis b) !! route = obj_apis h (b_apis b) !! route.
Proof.
  induction cs as [|c cs IH]; intros Hk b h b' h' Hrun.
  { simpl in Hrun. by injection Hrun as <- <-. }
  simpl in Hk. apply andb_true_iff in Hk as [Hc Hk].
  cbn [run_calls] in Hrun.
  destruct (run_call c (b, h)) as [[b1 h1]|e] eqn:E1; [|discriminate].
  assert (Hstep : b1 = b /\ obj_apis h1 (b_apis b) !! route = obj_apis h (b_apis b) !! route).
  { destruct c as [ctx|name f|name n|route' name m]; simpl in Hc, E1; try discriminate.
    - destruct (createAction_inl _ _ _ _ _ _ E1) as (-> & Ha & _).
      split; [done|]. unfold obj_apis. by rewrite Ha.
    - injection E1 as <- <-. split; [done|]. unfold obj_apis, set_notifiers. done.
    - injection E1 as <- <-. split; [done|].
      rewrite obj_apis_set_apis, decide_True by done.
      apply lookup_insert_ne. intros ->. by rewrite String.eqb_refl in Hc. }
  destruct Hstep as [-> Hs].
  destruct (IH Hk b h1 b' h' Hrun) as [-> Heq]. split; [done|]. by rewrite Heq.
Qed.

Lemma getApi_own (r : BaseResource) (route : string) (m : Method) (h : heap) (api : Api) :
  obj_apis h (r_apis r) !! route = Some api -> api_method api = m ->
  getApi r route m h = Some api.
Proof.
  intros Hl <-. unfold getApi, js_get. rewrite Hl. by rewrite method_eqb_refl.
Qed.

Lemma getApi_method (r : BaseResource) (route : string) (m : Method) (h : heap) (api : Api) :
  getApi r route m h = Some api -> api_method api = m.
Proof.
  unfold getApi. destruct (js_get _ route) as [[a|pm|p|v]|]; try discriminate.
  destruct (method_eqb (api_method a) m) eqn:E; [|discriminate].
  intros [= <-]. by apply method_eqb_true.
Qed.

(** ** Notifier fan-out *)

Section Notifiers.

Variable nimpl : nref -> jsval -> nret.

Lemma invoke_notifiers_inl (ns : list nref) (v : jsval) t ps :
  invoke_notifiers nimpl ns v = (t, inl ps) ->
  t = map (fun n => EvNotify n v) ns /\
  (forall n, n ∈ ns -> exists p, nimpl n v = NReturns p /\ settlement_of n ps = Some p).
Proof.
  revert t ps. induction ns as [|n0 ns IH]; intros t ps Hi.
  - simpl in Hi. injection Hi as <- <-. split; [done|]. intros n Hn. set_solver.
  - cbn [invoke_notifiers] in Hi. rewrite bind_emit in Hi.
    destruct (nimpl n0 v) as [e|p0] eqn:Hn0; simpl in Hi; [discriminate|].
    destruct (invoke_notifiers nimpl ns v) as [t1 [ps1|e]] eqn:Hi1;
      [|simpl in Hi; discriminate].
    rewrite bind_inl in Hi. simpl in Hi. injection Hi as <- <-.
    destruct (IH _ _ eq_refl) as [-> Hps].
    split; [by rewrite app_nil_r|].
    intros n Hn. simpl. destruct (Nat.eqb_spec n n0) as [->|Hne].
    + by exists p0.
    + apply Hps. apply elem_of_cons in Hn as [->|Hn]; [done|done].
Qed.

Lemma invoke_notifiers_throw (ns : list nref) (v : jsval) (n : nref) (e : jserror) :
  n ∈ ns -> nimpl n v = NThrows e ->
  exists t e', invoke_notifiers nimpl ns v = (t, inr e').
Proof.
  induction ns as [|n0 ns IH]; intros Hn He; [set_solver|].
  cbn [invoke_notifiers settle_all]. rewrite bind_emit.
  destruct (nimpl n0 v) as [e0|p0] eqn:Hn0; simpl.
  - eauto.
  - apply elem_of_cons in Hn as [->|Hn]; [congruence|].
    destruct (IH Hn He) as (t & e' & ->). simpl. eauto.
Qed.

Lemma invoke_notifiers_ok (ns : list nref) (v : jsval) :
  (forall n, n ∈ ns -> exists w, nimpl n v = NReturns (Fulfilled w)) ->
  exists ps, invoke_notifiers nimpl ns v = (map (fun n => EvNotify n v) ns, inl ps) /\
    (forall n p, settlement_of n ps = Some p -> exists w, p = Fulfilled w).
Proof.
  induction ns as [|n0 ns IH]; intros Hok.
  - exists []. split; [done|]. intros n p [=].
  - destruct (Hok n0) as [w0 Hw0]; [set_solver|].
    destruct IH as (ps & Hi & Hps); [intros n Hn; apply Hok; set_solver|].
    exists ((n0, Fulfilled w0) :: ps). cbn [invoke_notifiers]. rewrite bind_emit, Hw0. simpl.
    rewrite Hi, bind_inl. simpl. split; [by rewrite app_nil_r|].
    intros n p. simpl. destruct (Nat.eqb n n0); [intros [= <-]; eauto|apply Hps].
Qed.

Lemma settle_all_inl (sched : list nref) ps t u :
  settle_all sched ps = (t, inl u) -> t = map EvSettled sched.
Proof.
  revert t u. induction sched as [|n sched IH]; intros t u Hs.
  - simpl in Hs. by injection Hs as <-.
  - cbn [settle_all] in Hs. rewrite bind_emit in Hs.
    destruct (settlement_of n ps) as [[w|e]|]; try (simpl in Hs; discriminate);
      destruct (settle_all sched ps) as [t1 [u1|e1]] eqn:E; simpl in Hs;
      try discriminate; injection Hs as <- <-; simpl; f_equal; exact (IH _ _ eq_refl).
Qed.

Lemma settle_all_ok (sched : list nref) ps :
  (forall n p, settlement_of n ps = Some p -> exists w, p = Fulfilled w) ->
  settle_all sched ps = (map EvSettled sched, inl tt).
Proof.
  intros Hps. induction sched as [|n sched IH]; [done|].
  cbn [invoke_notifiers settle_all]. rewrite bind_emit.
  destruct (settlement_of n ps) as [p|] eqn:E.
  - destruct (Hps n p E) as [w ->]. by rewrite IH.
  - by rewrite IH.
Qed.

Lemma settle_all_reject (sched : list nref) ps (n : nref) (e : jserror) :
  n ∈ sched -> settlement_of n ps = Some (Rejected e) ->
  exists t e', settle_all sched ps = (t, inr e').
Proof.
  induction sched as [|n0 sched IH]; intros Hn He; [set_solver|].
  cbn [invoke_notifiers settle_all]. rewrite bind_emit.
  destruct (settlement_of n0 ps) as [[w|e0]|] eqn:E; simpl; eauto;
  (apply elem_of_cons in Hn as [->|Hn]; [congruence|];
   destruct (IH Hn He) as (t & e' & ->); simpl; eauto).
Qed.

End Notifiers.

(** ** Shape of a [callAction] run *)

Section CallAction.

Variable nimpl : nref -> jsval -> nret.

Lemma callAction_inl (r : BaseResource) (name : string) (args : list jsval)
    (sched : list nref) (h : heap) t v :
  callAction nimpl r name args sched h = (t, inl v) ->
  exists p, getAction r name h = Some p /\
    call_value p (r_context r) args = Some (Fulfilled v) /\
    t = EvCall name (r_context r) args ::
          match notifier_set r name h with
          | [] => []
          | ns => map (fun n => EvNotify n v) ns ++ map EvSettled sched
          end /\
    (forall n, n ∈ notifier_set r name h -> exists p, nimpl n v = NReturns p).
Proof.
  unfold callAction.
  destruct (getAction r name h) as [p|] eqn:Hg; [|discriminate].
  destruct (read_truthy p) as [[]|e]; [|discriminate|discriminate].
  destruct (call_value p (r_context r) args) as [res|] eqn:Hc; [|discriminate].
  rewrite bind_emit. intros Hcall.
  destruct res as [w|e]; [|discriminate].
  unfold await in Hcall. rewrite bind_ret in Hcall.
  exists p. split; [done|].
  unfold notifier_set.
  destruct (obj_notifiers h (r_notifiers r) !! name) as [[|n0 ns]|] eqn:Hn;
    simpl in Hcall |- *.
  - injection Hcall as <- <-. split; [done|]. split; [done|]. set_solver.
  - unfold promise_all in Hcall.
    destruct (invoke_notifiers nimpl (n0 :: ns) w) as [t1 [ps|e]] eqn:Hi;
      simpl in Hcall; [|discriminate].
    destruct (settle_all sched ps) as [t2 [u|e]] eqn:Hs; simpl in Hcall; [|discriminate].
    injection Hcall as <- <-.
    destruct (invoke_notifiers_inl nimpl _ _ _ _ Hi) as [-> Hps].
    rewrite (settle_all_inl _ _ _ _ Hs).
    split; [done|]. split; [by rewrite app_nil_r|].
    intros n Hn'. destruct (Hps n Hn') as (p' & Hp' & _). eauto.
  - injection Hcall as <- <-. split; [done|]. split; [done|]. set_solver.
Qed.

Lemma callAction_own_call (r : BaseResource) (name : string) (args : list jsval)
    (sched : list nref) (h : heap) (f : Action) :
  obj_actions h (r_actions r) !! name = Some f ->
  exists t', (callAction nimpl r name args sched h).1 = EvCall name (r_context r) args :: t'.
Proof.
  intros Hf. unfold callAction, getAction. rewrite Hf. cbn -[bind emit].
  rewrite bind_emit. simpl. eauto.
Qed.

Lemma callAction_own_fulfilled (r : BaseResource) (name : string) (args : list jsval)
    (sched : list nref) (h : heap) (f : Action) (v : jsval) :
  obj_actions h (r_actions r) !! name = Some f ->
  f (r_context r) args = Fulfilled v ->
  (forall n, n ∈ notifier_set r name h -> exists w, nimpl n v = NReturns (Fulfilled w)) ->
  (callAction nimpl r name args sched h).2 = inl v.
Proof.
  intros Hf Hv Hok. unfold callAction, getAction. rewrite Hf. cbn -[bind emit].
  rewrite bind_emit, Hv. cbn [await]. rewrite bind_ret. cbn [snd].
  unfold notifier_set in *.
  destruct (obj_notifiers h (r_notifiers r) !! name) as [[|n0 ns]|] eqn:Hn;
    simpl in Hok |- *; [done| |done].
  unfold promise_all.
  destruct (invoke_notifiers_ok nimpl (n0 :: ns) v Hok) as (ps & Hi & Hps).
  rewrite Hi, bind_inl. simpl. rewrite (settle_all_ok sched ps Hps). done.
Qed.

Lemma callAction_notifier_fails (r : BaseResource) (name : string) (args : list jsval)
    (sched : list nref) (h : heap) (f : Action) (v : jsval) (n : nref) (e : jserror) :
  obj_actions h (r_actions r) !! name = Some f ->
  f (r_context r) args = Fulfilled v ->
  n ∈ notifier_set r name h -> n ∈ sched ->
  (nimpl n v = NThrows e \/ nimpl n v = NReturns (Rejected e)) ->
  exists e', (callAction nimpl r name args sched h).2 = inr e'.
Proof.
  intros Hf Hv Hn Hsched He. unfold callAction, getAction. rewrite Hf. cbn -[bind emit].
  rewrite bind_emit, Hv. cbn [await]. rewrite bind_ret. cbn [snd].
  unfold notifier_set in *.
  destruct (obj_notifiers h (r_notifiers r) !! name) as [[|n0 ns]|] eqn:Hns;
    simpl in Hn |- *; [set_solver| |set_solver].
  unfold promise_all.
  destruct (invoke_notifiers nimpl (n0 :: ns) v) as [t1 [ps|e1]] eqn:Hi;
    [|simpl; eauto].
  destruct (invoke_notifiers_inl nimpl _ _ _ _ Hi) as [_ Hps].
  destruct (Hps n Hn) as (p & Hp & Hsp).
  destruct He as [He|He]; rewrite He in Hp; [discriminate|].
  injection Hp as <-.
  destruct (settle_all_reject sched ps n e Hsched Hsp) as (t2 & e2 & Hs).
  rewrite bind_inl. simpl. rewrite Hs. simpl. eauto.
Qed.

End CallAction.

(** ** Reachable states *)

Lemma set_add_nodup (n : nref) (s : list nref) : NoDup s -> NoDup (set_add n s).
Proof.
  intros Hs. unfold set_add. case_bool_decide as Hn; [done|].
  apply (proj2 (NoDup_app s [n])). split; [done|]. split; [set_solver|]. apply NoDup_singleton.
Qed.

Lemma set_add_elem (n : nref) (s : list nref) : n ∈ set_add n s.
Proof. unfold set_add. case_bool_decide; set_solver. Qed.

Lemma obj_notifiers_nodup (h : heap) (l : loc) k s :
  notifiers_nodup h -> obj_notifiers h l !! k = Some s -> NoDup s.
Proof.
  unfold obj_notifiers. intros Hh.
  destruct (h_notifiers h !! l) as [m|] eqn:E; simpl; [|by rewrite lookup_empty].
  intros Hk. exact (Hh l m k s E Hk).
Qed.

Lemma run_call_inv (c : builder_call) (bh bh' : ResourceBuilder * heap) :
  run_call c bh = inl bh' -> reachable_inv bh -> reachable_inv bh'.
Proof.
  destruct bh as [b h]. intros Hrun [Hnd (Ha & Hp & Hn)]. cbn in Hnd, Ha, Hp, Hn.
  destruct c as [ctx|name f|name n|route name m]; simpl in Hrun.
  - injection Hrun as <-. unfold setContext, new_ResourceBuilder. split; simpl.
    + intros l m k s Hl Hk. simpl in Hl.
      destruct (decide (l = S (S (S (h_next h))))) as [->|Hne].
      * rewrite lookup_insert_eq in Hl. injection Hl as <-. by rewrite lookup_empty in Hk.
      * rewrite lookup_insert_ne in Hl by congruence. exact (Hnd l m k s Hl Hk).
    + unfold builder_allocated; simpl. lia.
  - destruct bh' as [b' h'].
    destruct (createAction_inl _ _ _ _ _ _ Hrun) as (-> & _ & Hns & Hnx).
    split; cbn.
    + intros l m k s Hl Hk. rewrite Hns in Hl. exact (Hnd l m k s Hl Hk).
    + unfold builder_allocated. rewrite Hnx. exact (conj Ha (conj Hp Hn)).
  - injection Hrun as <-.
    unfold addNotifier. split; [|exact (conj Ha (conj Hp Hn))]. simpl.
    intros l m k s Hl Hk. simpl in Hl.
    destruct (decide (b_notifiers b = l)) as [<-|Hne].
    + rewrite lookup_insert_eq in Hl. injection Hl as <-.
      destruct (decide (k = name)) as [->|Hkn].
      * rewrite lookup_insert_eq in Hk. injection Hk as <-. apply set_add_nodup.
        destruct (obj_notifiers h (b_notifiers b) !! name) as [s0|] eqn:E; simpl.
        -- rewrite E. simpl. by apply (obj_notifiers_nodup h (b_notifiers b) name).
        -- rewrite lookup_insert_eq. constructor.
      * rewrite lookup_insert_ne in Hk by congruence.
        destruct (obj_notifiers h (b_notifiers b) !! name) eqn:E.
        -- by apply (obj_notifiers_nodup h (b_notifiers b) k).
        -- rewrite lookup_insert_ne in Hk by congruence.
           by apply (obj_notifiers_nodup h (b_notifiers b) k).
    + rewrite lookup_insert_ne in Hl by done. exact (Hnd l m k s Hl Hk).
  - injection Hrun as <-. split; [exact Hnd|exact (conj Ha (conj Hp Hn))].
Qed.

Lemma run_calls_inv (cs : list builder_call) (bh bh' : ResourceBuilder * heap) :
  run_calls cs bh = inl bh' -> reachable_inv bh -> reachable_inv bh'.
Proof.
  revert bh. induction cs as [|c cs IH]; intros bh Hrun Hbh.
  - simpl in Hrun. by injection Hrun as <-.
  - cbn [run_calls] in Hrun.
    destruct (run_call c bh) as [bh1|e] eqn:E1; [|discriminate].
    apply (IH bh1 Hrun). by apply (run_call_inv c bh).
Qed.

Lemma createResource_inv (name : string) : reachable_inv (createResource name empty_heap).
Proof.
  split.
  - intros l m k s Hl Hk. simpl in Hl.
    destruct (decide (l = 3)) as [->|Hne].
    + rewrite lookup_insert_eq in Hl. injection Hl as <-. by rewrite lookup_empty in Hk.
    + rewrite lookup_insert_ne in Hl by congruence. by rewrite lookup_empty in Hl.
  - unfold builder_allocated; simpl. lia.
Qed.

Lemma reachable_nodup (rname : string) (cs : list builder_call) b h (name : string) :
  run_calls cs (createResource rname empty_heap) = inl (b, h) ->
  NoDup (notifier_set (build b) name h).
Proof.
  intros E. destruct (run_calls_inv cs _ _ E (createResource_inv rname)) as [Hnd _].
  simpl in Hnd. unfold notifier_set. simpl.
  destruct (obj_notifiers h (b_notifiers b) !! name) as [s|] eqn:Hs; simpl.
  - by apply (obj_notifiers_nodup h (b_notifiers b) name).
  - constructor.
Qed.



Lemma obj_actions_set_action_proto (h : heap) (l l' : loc) (f : Action) :
  obj_actions (set_action_proto h l f) l' = obj_actions h l'.
Proof. reflexivity. Qed.

Lemma h_action_protos_set_action_proto (h : heap) (l : loc) (f : Action) :
  h_action_protos (set_action_proto h l f) !! l = Some f.
Proof. unfold set_action_proto. cbn. apply lookup_insert_eq. Qed.




(** ** Counting events *)

Lemma notify_count_app (n : nref) (t1 t2 : list event) :
  notify_count n (t1 ++ t2) = notify_count n t1 + notify_count n t2.
Proof. induction t1 as [|[] t1 IH]; simpl; lia. Qed.

Lemma notify_count_settled (n : nref) (sched : list nref) :
  notify_count n (map EvSettled sched) = 0.
Proof. by induction sched. Qed.

Lemma notify_count_absent (n : nref) (ns : list nref) (v : jsval) :
  n ∉ ns -> notify_count n (map (fun m => EvNotify m v) ns) = 0.
Proof.
  induction ns as [|m ns IH]; intros Hn; [done|]. simpl.
  destruct (Nat.eqb_spec m n) as [->|_]; [set_solver|]. apply IH. set_solver.
Qed.

Lemma notify_count_once (n : nref) (ns : list nref) (v : jsval) :
  NoDup ns -> n ∈ ns -> notify_count n (map (fun m => EvNotify m v) ns) = 1.
Proof.
  induction ns as [|m ns IH]; intros Hnd Hn; [set_solver|].
  apply NoDup_cons in Hnd as [Hm Hnd]. simpl.
  destruct (Nat.eqb_spec m n) as [->|Hne].
  - by rewrite notify_count_absent.
  - apply IH; [done|]. apply elem_of_cons in Hn as [->|Hn]; [congruence|done].
Qed.

Lemma elem_of_notify_map (n : nref) (w v : jsval) (ns : list nref) :
  EvNotify n w ∈ map (fun m => EvNotify m v) ns -> n ∈ ns /\ w = v.
Proof.
  induction ns as [|m ns IH]; simpl; intros H; [set_solver|].
  apply elem_of_cons in H as [[= -> ->]|H]; [set_solver|].
  destruct (IH H). set_solver.
Qed.

Lemma elem_of_settled_map (ev : event) (sched : list nref) :
  ev ∈ map EvSettled sched -> exists n, ev = EvSettled n.
Proof.
  induction sched as [|m sched IH]; simpl; intros H; [set_solver|].
  apply elem_of_cons in H as [->|H]; eauto.
Qed.

Lemma settled_in_map (n : nref) (sched : list nref) :
  n ∈ sched -> EvSettled n ∈ map EvSettled sched.
Proof.
  induction sched as [|m sched IH]; simpl; intros H; [set_solver|].
  apply elem_of_cons in H as [->|H]; apply elem_of_cons; [by left|right; auto].
Qed.

(** ** Notifier registration *)

Lemma set_add_idem (n : nref) (s : list nref) : set_add n (set_add n s) = set_add n s.
Proof.
  unfold set_add at 1. case_bool_decide as H; [done|].
  exfalso. apply H, set_add_elem.
Qed.

Lemma addNotifier_twice_heap (b : ResourceBuilder) (name : string) (n : nref) (h : heap) :
  addNotifier b name n (addNotifier b name n h).2 = addNotifier b name n h.
Proof.
  set (m := obj_notifiers h (b_notifiers b)).
  set (m1 := match m !! name with Some _ => m | None => <[name := []]> m end).
  set (s := set_add n (default [] (m1 !! name))).
  assert (Hp : addNotifier b name n h = (b, set_notifiers h (b_notifiers b) (<[name := s]> m1)))
    by reflexivity.
  rewrite Hp. cbn [snd]. unfold addNotifier.
  rewrite obj_notifiers_set_notifiers, decide_True by done.
  rewrite lookup_insert_eq. cbn [default]. rewrite lookup_insert_eq. cbn [default].
  assert (Hs : set_add n s = s) by (unfold s; apply set_add_idem).
  unfold id. rewrite Hs.
  unfold set_notifiers; cbn. by rewrite !insert_insert_eq.
Qed.

Lemma addNotifier_twice (name : string) (n : nref) (b : ResourceBuilder) (h : heap) :
  run_calls [AddNotifier name n; AddNotifier name n] (b, h) =
  run_calls [AddNotifier name n] (b, h).
Proof.
  assert (E : addNotifier b name n h = (b, (addNotifier b name n h).2)) by reflexivity.
  cbn [run_calls run_call]. rewrite E. cbn [run_calls run_call].
  by rewrite addNotifier_twice_heap.
Qed.

Lemma addNotifier_elem (b : ResourceBuilder) (name : string) (n : nref) (h : heap) :
  n ∈ notifier_set (build b) name (addNotifier b name n h).2.
Proof.
  unfold notifier_set, addNotifier; cbn.
  rewrite obj_notifiers_set_notifiers, decide_True by done.
  rewrite lookup_insert_eq. apply set_add_elem.
Qed.

Lemma run_calls_app (cs1 cs2 : list builder_call) (bh : ResourceBuilder * heap) :
  run_calls (cs1 ++ cs2) bh =
    match run_calls cs1 bh with inl bh' => run_calls cs2 bh' | inr e => inr e end.
Proof.
  revert bh. induction cs1 as [|c cs1 IH]; intros bh; [done|].
  cbn [app run_calls]. destruct (run_call c bh); [apply IH|done].
Qed.

(** ** Lookups of absent names *)

Lemma callAction_absent (nimpl : nref -> jsval -> nret) (r : BaseResource)
    (name : string) (args : list jsval) (sched : list nref) (h : heap) :
  obj_actions h (r_actions r) !! name = None ->
  h_action_protos h !! r_actions r = None -> object_prototype name = None ->
  callAction nimpl r name args sched h = ([], inr (Error ("Action " ++ name ++ " not found"))).
Proof.
  intros Ho Hpr Hp. unfold callAction, getAction, fn_chain. by rewrite Ho, Hpr, Hp.
Qed.

(** ** Claims *)

(** C2: for a resource built after [addApi(route, name, method)], as long as
    the later builder calls neither replace the builder ([setContext]) nor
    re-register [route], [callApi(route, method, ...args)] is the very same
    computation as [callAction(name, ...args)]: same trace of calls, same
    value or same rejection. *)
Theorem callApi_after_addApi (nimpl : nref -> jsval -> nret)
    (b : ResourceBuilder) (h : heap) (route name : string) (m : Method)
    (later : list builder_call) (args : list jsval) (sched : list nref) :
  forallb (keeps_route route) later = true ->
  forall b' h', run_calls later (addApi b route name m h) = inl (b', h') ->
  callApi nimpl (build b') route m args sched h' =
  callAction nimpl (build b') name args sched h'.
Proof.
  intros Hk b' h' Hrun. unfold addApi in Hrun.
  destruct (run_calls_keep_route route later Hk b _ b' h' Hrun) as [-> Hl].
  rewrite obj_apis_set_apis, decide_True, lookup_insert_eq in Hl by done.
  unfold callApi. rewrite (getApi_own (build b) route m h' _ Hl eq_refl).
  simpl. by rewrite method_eqb_refl.
Qed.

Lemma callApi_after_addApi_witness :
  forallb (keeps_route "/create") [CreateAction "create" echo_action] = true /\
  run_calls [CreateAction "create" echo_action]
    (addApi (createResource "user" empty_heap).1 "/create" "create" POST
       (createResource "user" empty_heap).2) =
    inl (final_state [CreateAction "create" echo_action]
           (addApi (createResource "user" empty_heap).1 "/create" "create" POST
              (createResource "user" empty_heap).2)) /\
  callApi sample_notifiers
    (build (final_state [CreateAction "create" echo_action]
              (addApi (createResource "user" empty_heap).1 "/create" "create" POST
                 (createResource "user" empty_heap).2)).1) "/create" POST [JNum 42] []
    (final_state [CreateAction "create" echo_action]
       (addApi (createResource "user" empty_heap).1 "/create" "create" POST
          (createResource "user" empty_heap).2)).2 =
  callAction sample_notifiers
    (build (final_state [CreateAction "create" echo_action]
              (addApi (createResource "user" empty_heap).1 "/create" "create" POST
                 (createResource "user" empty_heap).2)).1) "create" [JNum 42] []
    (final_state [CreateAction "create" echo_action]
       (addApi (createResource "user" empty_heap).1 "/create" "create" POST
          (createResource "user" empty_heap).2)).2.
Proof.
  assert (E : run_calls [CreateAction "create" echo_action]
                (addApi (createResource "user" empty_heap).1 "/create" "create" POST
                   (createResource "user" empty_heap).2) =
              inl ((final_state [CreateAction "create" echo_action]
                     (addApi (createResource "user" empty_heap).1 "/create" "create" POST
                        (createResource "user" empty_heap).2)).1,
                   (final_state [CreateAction "create" echo_action]
                     (addApi (createResource "user" empty_heap).1 "/create" "create" POST
                        (createResource "user" empty_heap).2)).2)) by reflexivity.
  split; [reflexivity|]. split; [exact E|].
  exact (callApi_after_addApi sample_notifiers (createResource "user" empty_heap).1
           (createResource "user" empty_heap).2 "/create" "create" POST
           [CreateAction "create" echo_action] [JNum 42] [] eq_refl _ _ E).
Defined.

(** C7: [callApi] on a route with no own entry in the route table, or whose
    entry stores another method, rejects with [Error("API <route> not
    found")] before anything runs: the trace is empty, so no action and no
    notifier is invoked. *)
Theorem callApi_unrouted (nimpl : nref -> jsval -> nret) (r : BaseResource)
    (route : string) (m : Method) (args : list jsval) (sched : list nref) (h : heap) :
  (obj_apis h (r_apis r) !! route = None \/
   exists api, obj_apis h (r_apis r) !! route = Some api /\ api_method api <> m) ->
  callApi nimpl r route m args sched h = ([], inr (Error ("API " ++ route ++ " not found"))).
Proof.
  intros Hr. unfold callApi, getApi, js_get.
  destruct Hr as [Hn | (api & Hs & Hm)].
  - rewrite Hn. by destruct (object_prototype route).
  - rewrite Hs. destruct (method_eqb (api_method api) m) eqn:E; [|done].
    apply method_eqb_true in E. contradiction.
Qed.

Lemma callApi_unrouted_witness :
  (obj_apis (createResource "user" empty_heap).2
     (r_apis (build (createResource "user" empty_heap).1)) !! "/create" = None \/
   exists api, obj_apis (createResource "user" empty_heap).2
     (r_apis (build (createResource "user" empty_heap).1)) !! "/create" = Some api
     /\ api_method api <> GET) /\
  callApi sample_notifiers (build (createResource "user" empty_heap).1) "/create" GET []
    [] (createResource "user" empty_heap).2
  = ([], inr (Error ("API " ++ "/create" ++ " not found"))).
Proof.
  split; [left; reflexivity|].
  apply callApi_unrouted. left. reflexivity.
Defined.

(** C8: whenever [getApi(route, method)] returns an entry, its stored method
    is the requested one, so the second check of [callApi] never fires:
    [callApi] is the not-found rejection or the delegated [callAction]. *)
Theorem callApi_method_check_unreachable (nimpl : nref -> jsval -> nret)
    (r : BaseResource) (route : string) (m : Method) (args : list jsval)
    (sched : list nref) (h : heap) :
  (forall api, getApi r route m h = Some api -> api_method api = m) /\
  callApi nimpl r route m args sched h =
    match getApi r route m h with
    | None => throw (Error ("API " ++ route ++ " not found"))
    | Some api => callAction nimpl r (api_action api) args sched h
    end.
Proof.
  split.
  - intros api. apply getApi_method.
  - unfold callApi. destruct (getApi r route m h) as [api|] eqn:E; [|done].
    apply getApi_method in E. subst m. by rewrite method_eqb_refl.
Qed.

(** C5: in any state reached through builder calls, a successful call of
    [name] (its promise fulfils with [v]) has invoked every registered
    notifier exactly once, each with [v], and no other notifier; the value
    [v] is the one the looked-up action produced; and, whatever order the
    notifier promises settle in, each of them settled before the call
    resolved. *)
Theorem callAction_notifies_each_once (nimpl : nref -> jsval -> nret)
    (rname : string) (cs : list builder_call) (b : ResourceBuilder) (h : heap)
    (name : string) (args : list jsval) (sched : list nref) t v :
  run_calls cs (createResource rname empty_heap) = inl (b, h) ->
  sched ≡ₚ notifier_set (build b) name h ->
  callAction nimpl (build b) name args sched h = (t, inl v) ->
  (exists p, getAction (build b) name h = Some p /\
     call_value p (r_context (build b)) args = Some (Fulfilled v)) /\
  (forall n, n ∈ notifier_set (build b) name h -> notify_count n t = 1 /\ EvSettled n ∈ t) /\
  (forall n w, EvNotify n w ∈ t -> n ∈ notifier_set (build b) name h /\ w = v).
Proof.
  intros Hreach Hperm Hcall.
  pose proof (reachable_nodup rname cs b h name Hreach) as Hnd.
  destruct (callAction_inl nimpl _ _ _ _ _ _ _ Hcall) as (p & Hg & Hc & Ht & _).
  split; [eauto|].
  revert Hnd Hperm.
  destruct (notifier_set (build b) name h) as [|n0 ns] eqn:Ens; intros Hnd Hperm; subst t.
  - split; [set_solver|]. intros n w Hin. apply elem_of_cons in Hin as [[=]|Hin]. set_solver.
  - split.
    + intros n Hn. split.
      * cbn [notify_count]. rewrite notify_count_app, notify_count_settled.
        rewrite notify_count_once by done. lia.
      * apply elem_of_cons. right. apply elem_of_app. right.
        apply settled_in_map. by rewrite Hperm.
    + intros n w Hin. apply elem_of_cons in Hin as [[=]|Hin].
      apply elem_of_app in Hin as [Hin|Hin].
      * by apply elem_of_notify_map in Hin.
      * apply elem_of_settled_map in Hin as [m [=]].
Qed.

Lemma callAction_notifies_each_once_witness :
  run_calls sample_calls (createResource "TestResource" empty_heap)
    = inl (sample_state.1, sample_state.2) /\
  [3; 2] ≡ₚ notifier_set (build sample_state.1) "double" sample_state.2 /\
  callAction sample_notifiers (build sample_state.1) "double" [JNum 5] [3; 2] sample_state.2
    = ([EvCall "double" (JObj 0) [JNum 5]; EvNotify 2 (JNum 10); EvNotify 3 (JNum 10);
        EvSettled 3; EvSettled 2], inl (JNum 10)) /\
  ((exists p, getAction (build sample_state.1) "double" sample_state.2 = Some p /\
     call_value p (r_context (build sample_state.1)) [JNum 5] = Some (Fulfilled (JNum 10))) /\
   (forall n, n ∈ notifier_set (build sample_state.1) "double" sample_state.2 ->
      notify_count n [EvCall "double" (JObj 0) [JNum 5]; EvNotify 2 (JNum 10);
        EvNotify 3 (JNum 10); EvSettled 3; EvSettled 2] = 1 /\
      EvSettled n ∈ [EvCall "double" (JObj 0) [JNum 5]; EvNotify 2 (JNum 10);
        EvNotify 3 (JNum 10); EvSettled 3; EvSettled 2]) /\
   (forall n w, EvNotify n w ∈ [EvCall "double" (JObj 0) [JNum 5]; EvNotify 2 (JNum 10);
        EvNotify 3 (JNum 10); EvSettled 3; EvSettled 2] ->
      n ∈ notifier_set (build sample_state.1) "double" sample_state.2 /\ w = JNum 10)).
Proof.
  assert (E : run_calls sample_calls (createResource "TestResource" empty_heap)
                = inl (sample_state.1, sample_state.2)) by reflexivity.
  assert (P : [3; 2] ≡ₚ notifier_set (build sample_state.1) "double" sample_state.2)
    by (vm_compute; apply perm_swap).
  assert (C : callAction sample_notifiers (build sample_state.1) "double" [JNum 5] [3; 2]
                sample_state.2
              = ([EvCall "double" (JObj 0) [JNum 5]; EvNotify 2 (JNum 10);
                  EvNotify 3 (JNum 10); EvSettled 3; EvSettled 2], inl (JNum 10)))
    by reflexivity.
  split; [exact E|]. split; [exact P|]. split; [exact C|].
  exact (callAction_notifies_each_once sample_notifiers "TestResource" sample_calls
           sample_state.1 sample_state.2 "double" [JNum 5] [3; 2] _ _ E P C).
Defined.

(** C6: adding the same notifier reference twice for one action leaves the
    builder state exactly as adding it once, and a later successful call of
    that action invokes the notifier exactly once. *)
Theorem addNotifier_same_ref_once (nimpl : nref -> jsval -> nret)
    (rname : string) (cs : list builder_call) (name : string) (n : nref)
    (b : ResourceBuilder) (h : heap) (args : list jsval) (sched : list nref) t v :
  run_calls (cs ++ [AddNotifier name n; AddNotifier name n])
    (createResource rname empty_heap) = inl (b, h) ->
  callAction nimpl (build b) name args sched h = (t, inl v) ->
  run_calls (cs ++ [AddNotifier name n]) (createResource rname empty_heap) = inl (b, h) /\
  notify_count n t = 1.
Proof.
  intros Hreach Hcall.
  assert (Honce : run_calls (cs ++ [AddNotifier name n]) (createResource rname empty_heap)
                  = inl (b, h)).
  { rewrite <- Hreach, !run_calls_app.
    destruct (run_calls cs (createResource rname empty_heap)) as [[b0 h0]|e]; [|done].
    by rewrite addNotifier_twice. }
  split; [done|].
  pose proof (reachable_nodup rname _ b h name Hreach) as Hnd.
  assert (Hin : n ∈ notifier_set (build b) name h).
  { rewrite run_calls_app in Honce.
    destruct (run_calls cs (createResource rname empty_heap)) as [[b0 h0]|e]; [|discriminate].
    cbn [run_calls run_call] in Honce. unfold addNotifier in Honce.
    injection Honce as <- <-. apply (addNotifier_elem b0 name n h0). }
  destruct (callAction_inl nimpl _ _ _ _ _ _ _ Hcall) as (p & _ & _ & Ht & _).
  revert Hnd Hin. destruct (notifier_set (build b) name h) as [|n0 ns];
    intros Hnd Hin; [set_solver|].
  subst t. cbn [notify_count]. rewrite notify_count_app, notify_count_settled.
  rewrite notify_count_once by done. lia.
Qed.

Lemma addNotifier_same_ref_once_witness :
  let cs := [CreateAction "double" double_action; AddNotifier "double" 3] in
  let bh := final_state (cs ++ [AddNotifier "double" 2; AddNotifier "double" 2])
              (createResource "TestResource" empty_heap) in
  run_calls (cs ++ [AddNotifier "double" 2; AddNotifier "double" 2])
    (createResource "TestResource" empty_heap) = inl (bh.1, bh.2) /\
  callAction sample_notifiers (build bh.1) "double" [JNum 4] [2; 3] bh.2
    = ([EvCall "double" (JObj 0) [JNum 4]; EvNotify 3 (JNum 8); EvNotify 2 (JNum 8);
        EvSettled 2; EvSettled 3], inl (JNum 8)) /\
  (run_calls (cs ++ [AddNotifier "double" 2]) (createResource "TestResource" empty_heap)
     = inl (bh.1, bh.2) /\
   notify_count 2 [EvCall "double" (JObj 0) [JNum 4]; EvNotify 3 (JNum 8);
     EvNotify 2 (JNum 8); EvSettled 2; EvSettled 3] = 1).
Proof.
  intros cs bh.
  assert (E : run_calls (cs ++ [AddNotifier "double" 2; AddNotifier "double" 2])
                (createResource "TestResource" empty_heap) = inl (bh.1, bh.2)) by reflexivity.
  assert (C : callAction sample_notifiers (build bh.1) "double" [JNum 4] [2; 3] bh.2
              = ([EvCall "double" (JObj 0) [JNum 4]; EvNotify 3 (JNum 8); EvNotify 2 (JNum 8);
                  EvSettled 2; EvSettled 3], inl (JNum 8))) by reflexivity.
  split; [exact E|]. split; [exact C|].
  exact (addNotifier_same_ref_once sample_notifiers "TestResource" cs "double" 2 bh.1 bh.2
           [JNum 4] [2; 3] _ _ E C).
Defined.

(** C10: when the action itself fulfils with [v] but one registered notifier
    throws or returns a rejected promise, the action has run, yet the
    [callAction] promise rejects: [v] is not delivered. *)
Theorem notifier_failure_rejects (nimpl : nref -> jsval -> nret) (r : BaseResource)
    (name : string) (args : list jsval) (sched : list nref) (h : heap)
    (f : Action) (v : jsval) (n : nref) (e : jserror) :
  obj_actions h (r_actions r) !! name = Some f ->
  f (r_context r) args = Fulfilled v ->
  n ∈ notifier_set r name h ->
  sched ≡ₚ notifier_set r name h ->
  (nimpl n v = NThrows e \/ nimpl n v = NReturns (Rejected e)) ->
  (exists t', (callAction nimpl r name args sched h).1 = EvCall name (r_context r) args :: t') /\
  (exists e', (callAction nimpl r name args sched h).2 = inr e').
Proof.
  intros Hf Hv Hn Hperm He. split.
  - by apply callAction_own_call with f.
  - apply callAction_notifier_fails with f v n e; try done. by rewrite Hperm.
Qed.

Lemma notifier_failure_rejects_witness :
  obj_actions sample_state.2 (r_actions (build sample_state.1)) !! "echo" = Some echo_action /\
  echo_action (r_context (build sample_state.1)) [JNum 7] = Fulfilled (JNum 7) /\
  1 ∈ notifier_set (build sample_state.1) "echo" sample_state.2 /\
  [1] ≡ₚ notifier_set (build sample_state.1) "echo" sample_state.2 /\
  (sample_notifiers 1 (JNum 7) = NThrows (Thrown (JStr "notifier failed")) \/
   sample_notifiers 1 (JNum 7) = NReturns (Rejected (Thrown (JStr "notifier failed")))) /\
  ((exists t', (callAction sample_notifiers (build sample_state.1) "echo" [JNum 7] [1]
                 sample_state.2).1
               = EvCall "echo" (r_context (build sample_state.1)) [JNum 7] :: t') /\
   (exists e', (callAction sample_notifiers (build sample_state.1) "echo" [JNum 7] [1]
                 sample_state.2).2 = inr e')).
Proof.
  assert (H1 : obj_actions sample_state.2 (r_actions (build sample_state.1)) !! "echo"
               = Some echo_action) by reflexivity.
  assert (H2 : echo_action (r_context (build sample_state.1)) [JNum 7] = Fulfilled (JNum 7))
    by reflexivity.
  assert (H3 : 1 ∈ notifier_set (build sample_state.1) "echo" sample_state.2)
    by (vm_compute; apply elem_of_cons; by left).
  assert (H4 : [1] ≡ₚ notifier_set (build sample_state.1) "echo" sample_state.2)
    by (vm_compute; reflexivity).
  assert (H5 : sample_notifiers 1 (JNum 7) = NThrows (Thrown (JStr "notifier failed")) \/
               sample_notifiers 1 (JNum 7) = NReturns (Rejected (Thrown (JStr "notifier failed"))))
    by (left; reflexivity).
  do 5 (split; [assumption|]).
  exact (notifier_failure_rejects sample_notifiers (build sample_state.1) "echo" [JNum 7] [1]
           sample_state.2 echo_action (JNum 7) 1 (Thrown (JStr "notifier failed"))
           H1 H2 H3 H4 H5).
Defined.

(** C1, as stated, fails: the action [echo] of [sample_state] fulfils with
    [7], but its notifier 1 throws, and [callAction("echo", 7)] rejects
    instead of resolving to [7]. *)
Lemma callAction_value_counterexample :
  obj_actions sample_state.2 (r_actions (build sample_state.1)) !! "echo" = Some echo_action /\
  echo_action (r_context (build sample_state.1)) [JNum 7] = Fulfilled (JNum 7) /\
  (callAction sample_notifiers (build sample_state.1) "echo" [JNum 7] [1] sample_state.2).2
    = inr (Thrown (JStr "notifier failed")).
Proof. split; [reflexivity|]. split; reflexivity. Qed.

(** C1 (amended): for an action [f] bound to [name], [callAction(name,
    ...args)] invokes [f] with the resource's bound context and [args];
    whenever the call resolves, it resolves to exactly the value [f]
    fulfilled with; and when [f] fulfils with [v] and every registered
    notifier of [name] returns normally with a fulfilled result, the call
    resolves to [v].  Notifiers never change the value; a failing one makes
    the call reject (C10). *)
Theorem callAction_returns_action_value (nimpl : nref -> jsval -> nret)
    (r : BaseResource) (name : string) (args : list jsval) (sched : list nref)
    (h : heap) (f : Action) :
  obj_actions h (r_actions r) !! name = Some f ->
  (exists t', (callAction nimpl r name args sched h).1 = EvCall name (r_context r) args :: t') /\
  (forall t w, callAction nimpl r name args sched h = (t, inl w) ->
     f (r_context r) args = Fulfilled w) /\
  (forall v, f (r_context r) args = Fulfilled v ->
     (forall n, n ∈ notifier_set r name h -> exists w, nimpl n v = NReturns (Fulfilled w)) ->
     (callAction nimpl r name args sched h).2 = inl v).
Proof.
  intros Hf. split; [|split].
  - by apply callAction_own_call with f.
  - intros t w Hcall.
    destruct (callAction_inl nimpl _ _ _ _ _ _ _ Hcall) as (p & Hg & Hc & _).
    unfold getAction, js_get in Hg. rewrite Hf in Hg. injection Hg as <-.
    simpl in Hc. by injection Hc.
  - intros v Hv Hok. by apply callAction_own_fulfilled with f.
Qed.

Lemma callAction_returns_action_value_witness :
  obj_actions sample_state.2 (r_actions (build sample_state.1)) !! "double" = Some double_action /\
  ((exists t', (callAction sample_notifiers (build sample_state.1) "double" [JNum 5] [2; 3]
                  sample_state.2).1
               = EvCall "double" (r_context (build sample_state.1)) [JNum 5] :: t') /\
   (forall t w, callAction sample_notifiers (build sample_state.1) "double" [JNum 5] [2; 3]
                  sample_state.2 = (t, inl w) ->
      double_action (r_context (build sample_state.1)) [JNum 5] = Fulfilled w) /\
   (forall v, double_action (r_context (build sample_state.1)) [JNum 5] = Fulfilled v ->
      (forall n, n ∈ notifier_set (build sample_state.1) "double" sample_state.2 ->
         exists w, sample_notifiers n v = NReturns (Fulfilled w)) ->
      (callAction sample_notifiers (build sample_state.1) "double" [JNum 5] [2; 3]
         sample_state.2).2 = inl v)).
Proof.
  assert (H : obj_actions sample_state.2 (r_actions (build sample_state.1)) !! "double"
              = Some double_action) by reflexivity.
  split; [exact H|].
  exact (callAction_returns_action_value sample_notifiers (build sample_state.1) "double"
           [JNum 5] [2; 3] sample_state.2 double_action H).
Defined.

(** C3 (code_bug): [setContext] builds a new builder from the name, the new
    context and the shared action object only, so notifiers and routes
    registered before it are lost.  Registering the same action, notifier
    and route with [setContext] last or first (both chains run without an
    exception) gives resources with the same context and action, but only
    the second keeps the notifier and route. *)
Theorem setContext_drops_notifiers_and_routes :
  let s1 := final_state context_last_calls (createResource "user" empty_heap) in
  let s2 := final_state context_first_calls (createResource "user" empty_heap) in
  run_calls context_last_calls (createResource "user" empty_heap) = inl s1 /\
  run_calls context_first_calls (createResource "user" empty_heap) = inl s2 /\
  r_context (build s1.1) = JStr "db" /\ r_context (build s2.1) = JStr "db" /\
  getAction (build s1.1) "create" s1.2 = Some (Own echo_action) /\
  getAction (build s2.1) "create" s2.2 = Some (Own echo_action) /\
  notifier_set (build s1.1) "create" s1.2 = [] /\
  getApi (build s1.1) "/create" POST s1.2 = None /\
  notifier_set (build s2.1) "create" s2.2 = [2] /\
  getApi (build s2.1) "/create" POST s2.2 = Some (mkApi POST "/create" "create").
Proof. repeat split. Qed.

(** C9 (code_bug): [this._actions[name]] also finds the members of
    [Object.prototype]: on a fresh resource, which has no action at all,
    [callAction("toString")] does not reject with "Action toString not
    found" but calls [Object.prototype.toString] and resolves to
    ["[object Undefined]"]. *)
Theorem callAction_inherited_name_resolves (nimpl : nref -> jsval -> nret) (sched : list nref) :
  obj_actions (createResource "TestResource" empty_heap).2
    (r_actions (build (createResource "TestResource" empty_heap).1)) !! "toString" = None /\
  callAction nimpl (build (createResource "TestResource" empty_heap).1) "toString" [] sched
    (createResource "TestResource" empty_heap).2
  = ([EvCall "toString" (JObj 0) []], inl (JStr "[object Undefined]")).
Proof. split; reflexivity. Qed.




(** ** Further properties of the builder and the dispatch *)

Lemma run_calls_no_setContext (cs : list builder_call) :
  forallb not_setContext cs = true ->
  forall (b : ResourceBuilder) (h : heap) b' h', run_calls cs (b, h) = inl (b', h') -> b' = b.
Proof.
  induction cs as [|c cs IH]; intros Hc b h b' h' Hrun.
  { simpl in Hrun. by injection Hrun as <- _. }
  simpl in Hc. apply andb_true_iff in Hc as [Hc Hcs].
  cbn [run_calls] in Hrun.
  destruct (run_call c (b, h)) as [[b1 h1]|e] eqn:E1; [|discriminate].
  assert (b1 = b) as ->.
  { destruct c; simpl in Hc, E1; try discriminate.
    - by destruct (createAction_inl _ _ _ _ _ _ E1).
    - by injection E1.
    - by injection E1. }
  exact (IH Hcs b h1 b' h' Hrun).
Qed.

Lemma run_calls_name (cs : list builder_call) (bh bh' : ResourceBuilder * heap) :
  run_calls cs bh = inl bh' -> b_name bh'.1 = b_name bh.1.
Proof.
  revert bh. induction cs as [|c cs IH]; intros [b h] Hrun.
  { simpl in Hrun. by injection Hrun as <-. }
  cbn [run_calls] in Hrun.
  destruct (run_call c (b, h)) as [[b1 h1]|e] eqn:E1; [|discriminate].
  rewrite (IH _ Hrun). cbn.
  destruct c; simpl in E1.
  - by injection E1 as <- _.
  - by destruct (createAction_inl _ _ _ _ _ _ E1) as [-> _].
  - by injection E1 as <- _.
  - by injection E1 as <- _.
Qed.

Lemma run_call_routes_keyed (c : builder_call) (b : ResourceBuilder) (h : heap) b' h' :
  run_call c (b, h) = inl (b', h') -> routes_keyed h -> routes_keyed h'.
Proof.
  intros Hrun Hk. destruct c as [ctx|name f|name n|route name m]; simpl in Hrun.
  - injection Hrun as <- <-.
    intros l o k api Hl Ho. simpl in Hl.
    destruct (decide (l = S (S (h_next h)))) as [->|Hne].
    + rewrite lookup_insert_eq in Hl. injection Hl as <-. by rewrite lookup_empty in Ho.
    + rewrite lookup_insert_ne in Hl by congruence. exact (Hk l o k api Hl Ho).
  - destruct (createAction_inl _ _ _ _ _ _ Hrun) as (_ & Ha & _).
    intros l o k api Hl Ho. rewrite Ha in Hl. exact (Hk l o k api Hl Ho).
  - injection Hrun as <- <-. exact Hk.
  - injection Hrun as <- <-.
    intros l o k api Hl Ho. simpl in Hl.
    destruct (decide (b_apis b = l)) as [<-|Hne].
    + rewrite lookup_insert_eq in Hl. injection Hl as <-.
      destruct (decide (k = route)) as [->|Hkr].
      * rewrite lookup_insert_eq in Ho. by injection Ho as <-.
      * rewrite lookup_insert_ne in Ho by congruence.
        unfold obj_apis in Ho.
        destruct (h_apis h !! b_apis b) as [o0|] eqn:E; simpl in Ho.
        -- exact (Hk _ o0 k api E Ho).
        -- by rewrite lookup_empty in Ho.
    + rewrite lookup_insert_ne in Hl by done. exact (Hk l o k api Hl Ho).
Qed.

Lemma run_calls_routes_keyed (cs : list builder_call) (bh bh' : ResourceBuilder * heap) :
  run_calls cs bh = inl bh' -> routes_keyed bh.2 -> routes_keyed bh'.2.
Proof.
  revert bh. induction cs as [|c cs IH]; intros [b h] Hrun Hk.
  { simpl in Hrun. by injection Hrun as <-. }
  cbn [run_calls] in Hrun.
  destruct (run_call c (b, h)) as [[b1 h1]|e] eqn:E1; [|discriminate].
  apply (IH _ Hrun). exact (run_call_routes_keyed c b h b1 h1 E1 Hk).
Qed.

Lemma createResource_routes_keyed (rname : string) :
  routes_keyed (createResource rname empty_heap).2.
Proof.
  intros l o k api Hl Ho. simpl in Hl.
  destruct (decide (l = 2)) as [->|Hne].
  - rewrite lookup_insert_eq in Hl. injection Hl as <-. by rewrite lookup_empty in Ho.
  - rewrite lookup_insert_ne in Hl by congruence. by rewrite lookup_empty in Hl.
Qed.

Lemma getApi_Some (r : BaseResource) (route : string) (m : Method) (h : heap) (api : Api) :
  getApi r route m h = Some api -> obj_apis h (r_apis r) !! route = Some api.
Proof.
  unfold getApi, js_get.
  destruct (obj_apis h (r_apis r) !! route) as [a|] eqn:E.
  - destruct (method_eqb (api_method a) m); [by intros [= <-]|discriminate].
  - destruct (object_prototype route); discriminate.
Qed.

Lemma settle_all_prefix_reject (pre post : list nref) ps (n : nref) (e : jserror) :
  (forall m, m ∈ pre -> exists w, settlement_of m ps = Some (Fulfilled w)) ->
  settlement_of n ps = Some (Rejected e) ->
  settle_all (pre ++ n :: post) ps = (map EvSettled (pre ++ [n]), inr e).
Proof.
  induction pre as [|m pre IH]; intros Hpre Hn.
  - cbn [app settle_all]. rewrite bind_emit, Hn. done.
  - cbn [app settle_all]. rewrite bind_emit.
    destruct (Hpre m) as [w Hw]; [set_solver|]. rewrite Hw.
    rewrite IH by (done || (intros m' Hm'; apply Hpre; set_solver)).
    done.
Qed.

Section Prefixes.

Variable nimpl : nref -> jsval -> nret.

Lemma invoke_notifiers_prefix_throw (pre post : list nref) (n : nref) (v : jsval)
    (e : jserror) :
  (forall m, m ∈ pre -> exists p, nimpl m v = NReturns p) ->
  nimpl n v = NThrows e ->
  invoke_notifiers nimpl (pre ++ n :: post) v =
    (map (fun m => EvNotify m v) (pre ++ [n]), inr e).
Proof.
  induction pre as [|m pre IH]; intros Hpre Hn.
  - cbn [app invoke_notifiers]. rewrite bind_emit, Hn. done.
  - cbn [app invoke_notifiers]. rewrite bind_emit.
    destruct (Hpre m) as [p Hp]; [set_solver|]. rewrite Hp.
    rewrite IH by (done || (intros m' Hm'; apply Hpre; set_solver)).
    done.
Qed.

Lemma invoke_notifiers_all_return (ns : list nref) (v : jsval) :
  (forall m, m ∈ ns -> exists p, nimpl m v = NReturns p) ->
  exists ps, invoke_notifiers nimpl ns v = (map (fun m => EvNotify m v) ns, inl ps).
Proof.
  induction ns as [|m ns IH]; intros Hret; [by exists []|].
  destruct (Hret m) as [p Hp]; [set_solver|].
  destruct IH as [ps Hi]; [intros m' Hm'; apply Hret; set_solver|].
  exists ((m, p) :: ps). cbn [invoke_notifiers]. rewrite bind_emit, Hp, Hi, bind_inl.
  cbn. by rewrite app_nil_r.
Qed.

Lemma notifier_set_lookup (r : BaseResource) (name : string) (h : heap) (ns : list nref) :
  notifier_set r name h = ns -> ns <> [] -> obj_notifiers h (r_notifiers r) !! name = Some ns.
Proof.
  unfold notifier_set. destruct (obj_notifiers h (r_notifiers r) !! name); simpl; congruence.
Qed.

Lemma callAction_notified (r : BaseResource) (name : string) (args : list jsval)
    (sched : list nref) (h : heap) (f : Action) (v : jsval) (ns : list nref) :
  obj_actions h (r_actions r) !! name = Some f ->
  f (r_context r) args = Fulfilled v ->
  obj_notifiers h (r_notifiers r) !! name = Some ns -> ns <> [] ->
  callAction nimpl r name args sched h =
    (EvCall name (r_context r) args :: (promise_all nimpl ns v sched).1,
     match (promise_all nimpl ns v sched).2 with inl _ => inl v | inr e => inr e end).
Proof.
  intros Hf Hv Hn Hne. destruct ns as [|n0 ns]; [done|].
  unfold callAction, getAction. rewrite Hf. cbn [call_value].
  rewrite bind_emit, Hv. cbn [await]. rewrite bind_ret, Hn.
  destruct (promise_all nimpl (n0 :: ns) v sched) as [t [u|e]].
  - rewrite bind_inl. cbn. by rewrite app_nil_r.
  - done.
Qed.

End Prefixes.

(** ** Extras *)

(** The constructor's [context || {}]: a resource built with no [setContext]
    has a fresh object as its context; after a [setContext(c)] followed only
    by [createAction], [addNotifier] and [addApi] calls, the context is [c]
    when [c] is truthy and a fresh object otherwise ([0], [""], [null],
    [false] and [undefined] are all replaced). *)
Theorem context_of_last_setContext (rname : string) (h0 : heap)
    (cs1 cs2 : list builder_call) (c : jsval) :
  forallb not_setContext cs2 = true ->
  (forall b h, run_calls cs2 (createResource rname h0) = inl (b, h) ->
     r_context (build b) = JObj (h_next h0)) /\
  (forall b1 h1 b h, run_calls cs1 (createResource rname h0) = inl (b1, h1) ->
     run_calls (cs1 ++ SetContext c :: cs2) (createResource rname h0) = inl (b, h) ->
     r_context (build b) = if truthy c then c else JObj (h_next h1)).
Proof.
  intros Hcs. split.
  - intros b h Hrun. destruct (createResource rname h0) as [b0 h0'] eqn:E.
    rewrite (run_calls_no_setContext cs2 Hcs b0 h0' b h Hrun).
    unfold createResource, new_ResourceBuilder in E. injection E as <- _. done.
  - intros b1 h1 b h H1 Hrun. rewrite run_calls_app, H1 in Hrun.
    cbn [run_calls run_call] in Hrun.
    destruct (setContext b1 c h1) as [b' h'] eqn:E.
    rewrite (run_calls_no_setContext cs2 Hcs b' h' b h Hrun).
    unfold setContext, new_ResourceBuilder in E. injection E as <- _. done.
Qed.

Lemma context_of_last_setContext_witness :
  let bhA := final_state [AddNotifier "create" 2] (createResource "user" empty_heap) in
  let bh1 := final_state [CreateAction "create" echo_action] (createResource "user" empty_heap) in
  let bhB := final_state ([CreateAction "create" echo_action] ++
                            SetContext (JNum 0) :: [AddNotifier "create" 2])
               (createResource "user" empty_heap) in
  forallb not_setContext [AddNotifier "create" 2] = true /\
  run_calls [AddNotifier "create" 2] (createResource "user" empty_heap) = inl (bhA.1, bhA.2) /\
  run_calls [CreateAction "create" echo_action] (createResource "user" empty_heap)
    = inl (bh1.1, bh1.2) /\
  run_calls ([CreateAction "create" echo_action] ++ SetContext (JNum 0) :: [AddNotifier "create" 2])
    (createResource "user" empty_heap) = inl (bhB.1, bhB.2) /\
  r_context (build bhA.1) = JObj (h_next empty_heap) /\
  r_context (build bhB.1) = (if truthy (JNum 0) then JNum 0 else JObj (h_next bh1.2)).
Proof.
  intros bhA bh1 bhB.
  assert (EA : run_calls [AddNotifier "create" 2] (createResource "user" empty_heap)
                 = inl (bhA.1, bhA.2)) by reflexivity.
  assert (E1 : run_calls [CreateAction "create" echo_action] (createResource "user" empty_heap)
                 = inl (bh1.1, bh1.2)) by reflexivity.
  assert (EB : run_calls ([CreateAction "create" echo_action] ++
                            SetContext (JNum 0) :: [AddNotifier "create" 2])
                 (createResource "user" empty_heap) = inl (bhB.1, bhB.2)) by reflexivity.
  destruct (context_of_last_setContext "user" empty_heap [CreateAction "create" echo_action]
              [AddNotifier "create" 2] (JNum 0) eq_refl) as [P1 P2].
  split; [reflexivity|]. split; [exact EA|]. split; [exact E1|]. split; [exact EB|].
  exact (conj (P1 _ _ EA) (P2 _ _ _ _ E1 EB)).
Defined.

(** The [name] getter: whatever builder calls follow [createResource(name)],
    including [setContext], the builder and every resource built from it
    keep that name. *)
Theorem name_kept_by_builder_calls (rname : string) (h0 : heap) (cs : list builder_call)
    (b : ResourceBuilder) (h : heap) :
  run_calls cs (createResource rname h0) = inl (b, h) ->
  b_name b = rname /\ r_name (build b) = rname.
Proof. intros Hrun. pose proof (run_calls_name cs _ _ Hrun) as E. simpl in E. by split. Qed.

Lemma name_kept_by_builder_calls_witness :
  run_calls context_last_calls (createResource "user" empty_heap) =
    inl ((final_state context_last_calls (createResource "user" empty_heap)).1,
         (final_state context_last_calls (createResource "user" empty_heap)).2) /\
  b_name (final_state context_last_calls (createResource "user" empty_heap)).1 = "user" /\
  r_name (build (final_state context_last_calls (createResource "user" empty_heap)).1) = "user".
Proof.
  assert (E : run_calls context_last_calls (createResource "user" empty_heap) =
                inl ((final_state context_last_calls (createResource "user" empty_heap)).1,
                     (final_state context_last_calls (createResource "user" empty_heap)).2))
    by reflexivity.
  split; [exact E|].
  exact (name_kept_by_builder_calls "user" empty_heap context_last_calls _ _ E).
Defined.

(** [createAction(name, f)] followed by [getAction], on an action object
    whose prototype is [Object.prototype] and for a name other than
    [__proto__]: the assignment defines an own property, so the name now
    reads as the action [f], replacing any earlier action of that name, and
    every other name reads as before. *)
Theorem getAction_after_createAction (b : ResourceBuilder) (h : heap)
    (name : string) (f : Action) :
  h_action_protos h !! b_actions b = None -> name <> "__proto__" ->
  exists h', createAction b name f h = inl (b, h') /\
    forall name', getAction (build b) name' h' =
      if String.eqb name' name then Some (Own f) else getAction (build b) name' h.
Proof.
  intros Hp Hn. rewrite createAction_plain by done.
  eexists. split; [reflexivity|]. intros name'.
  unfold getAction. cbn. rewrite obj_actions_set_actions, decide_True by done.
  destruct (String.eqb_spec name' name) as [->|Hne].
  - by rewrite lookup_insert_eq.
  - by rewrite lookup_insert_ne by congruence.
Qed.

Lemma getAction_after_createAction_witness :
  h_action_protos sample_state.2 !! b_actions sample_state.1 = None /\
  "echo" <> "__proto__" /\
  exists h', createAction sample_state.1 "echo" double_action sample_state.2
               = inl (sample_state.1, h') /\
    forall name', getAction (build sample_state.1) name' h' =
      if String.eqb name' "echo" then Some (Own double_action)
      else getAction (build sample_state.1) name' sample_state.2.
Proof.
  assert (P : h_action_protos sample_state.2 !! b_actions sample_state.1 = None) by reflexivity.
  assert (N : "echo" <> "__proto__") by discriminate.
  split; [exact P|]. split; [exact N|].
  exact (getAction_after_createAction sample_state.1 sample_state.2 "echo" double_action P N).
Defined.

(** [addApi(route, name, method)] followed by [getApi]: the route now holds
    [{method, route, action: name}], found for [method] only (a route
    re-registered with another method is no longer found for the old one),
    and every other route reads as before. *)
Theorem getApi_after_addApi (b : ResourceBuilder) (h : heap) (route route' name : string)
    (m m' : Method) :
  getApi (build b) route' m' (addApi b route name m h).2 =
    if String.eqb route' route
    then (if method_eqb m m' then Some (mkApi m route name) else None)
    else getApi (build b) route' m' h.
Proof.
  unfold getApi, js_get, addApi. cbn.
  rewrite obj_apis_set_apis, decide_True by done.
  destruct (String.eqb_spec route' route) as [->|Hne].
  - rewrite lookup_insert_eq. cbn. by destruct (method_eqb m m').
  - by rewrite lookup_insert_ne by congruence.
Qed.

(** [addNotifier(name, n)] followed by a read of the notifier set: [name]'s
    set gains [n] at the end unless it already holds it (a [Set] keeps
    insertion order), and every other action's set is unchanged. *)
Theorem notifier_set_after_addNotifier (b : ResourceBuilder) (h : heap)
    (name name' : string) (n : nref) :
  notifier_set (build b) name' (addNotifier b name n h).2 =
    if String.eqb name' name
    then (if bool_decide (n ∈ notifier_set (build b) name h)
          then notifier_set (build b) name h
          else (notifier_set (build b) name h ++ [n])%list)
    else notifier_set (build b) name' h.
Proof.
  unfold notifier_set, addNotifier. cbn.
  rewrite obj_notifiers_set_notifiers, decide_True by done.
  destruct (String.eqb_spec name' name) as [->|Hne].
  - rewrite lookup_insert_eq. cbn [default].
    destruct (obj_notifiers h (b_notifiers b) !! name) as [s|] eqn:E.
    + rewrite E. done.
    + rewrite lookup_insert_eq. done.
  - rewrite lookup_insert_ne by congruence.
    destruct (obj_notifiers h (b_notifiers b) !! name) as [s|] eqn:E; [done|].
    by rewrite lookup_insert_ne by congruence.
Qed.

(** [setContext] keeps every action: the new builder reads the shared action
    object, so each name resolves as it did on the original builder; and an
    action created afterwards on the original builder, under a name other
    than [__proto__] while the action object has [Object.prototype] as its
    prototype, is seen by a resource built from the new one. *)
Theorem setContext_keeps_actions (b : ResourceBuilder) (h : heap) (c : jsval)
    (name name' : string) (f : Action) :
  getAction (build (setContext b c h).1) name' (setContext b c h).2 =
    getAction (build b) name' h /\
  (h_action_protos h !! b_actions b = None -> name <> "__proto__" ->
   exists h', createAction b name f (setContext b c h).2 = inl (b, h') /\
     getAction (build (setContext b c h).1) name h' = Some (Own f)).
Proof.
  split.
  - reflexivity.
  - intros Hp Hn. rewrite createAction_plain; [| exact Hp | exact Hn].
    eexists. split; [reflexivity|].
    unfold getAction. cbn. rewrite obj_actions_set_actions, decide_True by done.
    by rewrite lookup_insert_eq.
Qed.

Lemma setContext_keeps_actions_witness :
  h_action_protos sample_state.2 !! b_actions sample_state.1 = None /\
  "late" <> "__proto__" /\
  getAction (build (setContext sample_state.1 (JStr "db") sample_state.2).1) "double"
    (setContext sample_state.1 (JStr "db") sample_state.2).2 =
    getAction (build sample_state.1) "double" sample_state.2 /\
  exists h', createAction sample_state.1 "late" echo_action
               (setContext sample_state.1 (JStr "db") sample_state.2).2
               = inl (sample_state.1, h') /\
    getAction (build (setContext sample_state.1 (JStr "db") sample_state.2).1) "late" h'
      = Some (Own echo_action).
Proof.
  assert (P : h_action_protos sample_state.2 !! b_actions sample_state.1 = None) by reflexivity.
  assert (N : "late" <> "__proto__") by discriminate.
  destruct (setContext_keeps_actions sample_state.1 sample_state.2 (JStr "db") "late" "double"
              echo_action) as [K1 K2].
  split; [exact P|]. split; [exact N|]. split; [exact K1|]. exact (K2 P N).
Defined.

(** [addApi] does not check that the action exists: a route to a name that
    is neither a registered action nor an [Object.prototype] member (the
    action object having [Object.prototype] as its prototype) is found by
    [getApi], yet [callApi] on it rejects with [Error("Action <name> not
    found")] and runs nothing. *)
Theorem callApi_route_to_missing_action (nimpl : nref -> jsval -> nret)
    (b : ResourceBuilder) (h : heap) (route name : string) (m : Method)
    (args : list jsval) (sched : list nref) :
  obj_actions h (b_actions b) !! name = None ->
  h_action_protos h !! b_actions b = None ->
  object_prototype name = None ->
  getApi (build b) route m (addApi b route name m h).2 = Some (mkApi m route name) /\
  callApi nimpl (build b) route m args sched (addApi b route name m h).2 =
    ([], inr (Error ("Action " ++ name ++ " not found"))).
Proof.
  intros Ha Hpr Hp.
  assert (Hg : getApi (build b) route m (addApi b route name m h).2 = Some (mkApi m route name)).
  { apply getApi_own; [|done]. unfold addApi. cbn.
    rewrite obj_apis_set_apis, decide_True by done. by rewrite lookup_insert_eq. }
  split; [done|].
  unfold callApi. rewrite Hg. cbn [api_method api_action]. rewrite method_eqb_refl. cbn.
  apply callAction_absent; [exact Ha|exact Hpr|exact Hp].
Qed.

Lemma callApi_route_to_missing_action_witness :
  obj_actions (createResource "user" empty_heap).2
    (b_actions (createResource "user" empty_heap).1) !! "remove" = None /\
  h_action_protos (createResource "user" empty_heap).2
    !! b_actions (createResource "user" empty_heap).1 = None /\
  object_prototype "remove" = None /\
  (getApi (build (createResource "user" empty_heap).1) "/remove" DELETE
     (addApi (createResource "user" empty_heap).1 "/remove" "remove" DELETE
        (createResource "user" empty_heap).2).2 = Some (mkApi DELETE "/remove" "remove") /\
   callApi sample_notifiers (build (createResource "user" empty_heap).1) "/remove" DELETE []
     [] (addApi (createResource "user" empty_heap).1 "/remove" "remove" DELETE
           (createResource "user" empty_heap).2).2 =
     ([], inr (Error ("Action " ++ "remove" ++ " not found")))).
Proof.
  split; [reflexivity|]. split; [reflexivity|]. split; [reflexivity|].
  exact (callApi_route_to_missing_action sample_notifiers (createResource "user" empty_heap).1
           (createResource "user" empty_heap).2 "/remove" "remove" DELETE
           [] [] eq_refl eq_refl eq_refl).
Defined.

(** [callAction] on a name that is neither a registered action nor an
    [Object.prototype] member, the action object having [Object.prototype]
    as its prototype: [getAction] returns [undefined] and the call rejects
    with [Error("Action <name> not found")] before anything runs. *)
Theorem callAction_unregistered_rejects (nimpl : nref -> jsval -> nret) (r : BaseResource)
    (name : string) (args : list jsval) (sched : list nref) (h : heap) :
  obj_actions h (r_actions r) !! name = None ->
  h_action_protos h !! r_actions r = None -> object_prototype name = None ->
  getAction r name h = None /\
  callAction nimpl r name args sched h = ([], inr (Error ("Action " ++ name ++ " not found"))).
Proof.
  intros Ho Hpr Hp. split.
  - unfold getAction, fn_chain. by rewrite Ho, Hpr, Hp.
  - by apply callAction_absent.
Qed.

Lemma callAction_unregistered_rejects_witness :
  obj_actions sample_state.2 (r_actions (build sample_state.1)) !! "remove" = None /\
  h_action_protos sample_state.2 !! r_actions (build sample_state.1) = None /\
  object_prototype "remove" = None /\
  (getAction (build sample_state.1) "remove" sample_state.2 = None /\
   callAction sample_notifiers (build sample_state.1) "remove" [JNum 1] [] sample_state.2 =
     ([], inr (Error ("Action " ++ "remove" ++ " not found")))).
Proof.
  split; [reflexivity|]. split; [reflexivity|]. split; [reflexivity|].
  exact (callAction_unregistered_rejects sample_notifiers (build sample_state.1) "remove"
           [JNum 1] [] sample_state.2 eq_refl eq_refl eq_refl).
Defined.

(** When the action's own promise rejects with [e], [callAction] rejects
    with that same [e] after calling the action once, and no notifier is
    invoked. *)
Theorem callAction_action_rejection (nimpl : nref -> jsval -> nret) (r : BaseResource)
    (name : string) (args : list jsval) (sched : list nref) (h : heap) (f : Action)
    (e : jserror) :
  obj_actions h (r_actions r) !! name = Some f ->
  f (r_context r) args = Rejected e ->
  callAction nimpl r name args sched h = ([EvCall name (r_context r) args], inr e).
Proof.
  intros Hf He. unfold callAction, getAction. rewrite Hf. cbn -[bind emit].
  rewrite bind_emit, He. done.
Qed.

Lemma callAction_action_rejection_witness :
  obj_actions failing_state.2 (r_actions (build failing_state.1)) !! "save" = Some failing_action /\
  failing_action (r_context (build failing_state.1)) [JNum 1] = Rejected (Error "db down") /\
  callAction sample_notifiers (build failing_state.1) "save" [JNum 1] [2] failing_state.2 =
    ([EvCall "save" (r_context (build failing_state.1)) [JNum 1]], inr (Error "db down")).
Proof.
  split; [reflexivity|]. split; [reflexivity|].
  exact (callAction_action_rejection sample_notifiers (build failing_state.1) "save"
           [JNum 1] [2] failing_state.2 failing_action (Error "db down") eq_refl eq_refl).
Defined.

(** [[...notifiers].map(...)] stops at a synchronous throw: when the
    action fulfils with [v] and, in set order, the notifiers [pre] return
    while [n] throws [e], the notifiers after [n] are never invoked and the
    call rejects with [e]. *)
Theorem callAction_notifier_throw_stops (nimpl : nref -> jsval -> nret) (r : BaseResource)
    (name : string) (args : list jsval) (sched : list nref) (h : heap) (f : Action)
    (v : jsval) (pre post : list nref) (n : nref) (e : jserror) :
  obj_actions h (r_actions r) !! name = Some f ->
  f (r_context r) args = Fulfilled v ->
  notifier_set r name h = (pre ++ n :: post)%list ->
  (forall m, m ∈ pre -> exists p, nimpl m v = NReturns p) ->
  nimpl n v = NThrows e ->
  callAction nimpl r name args sched h =
    (EvCall name (r_context r) args :: map (fun m => EvNotify m v) (pre ++ [n]), inr e).
Proof.
  intros Hf Hv Hns Hpre Hn.
  assert (Hne : (pre ++ n :: post)%list <> []) by (by destruct pre).
  rewrite (callAction_notified nimpl r name args sched h f v _ Hf Hv
             (notifier_set_lookup r name h _ Hns Hne) Hne).
  unfold promise_all.
  rewrite (invoke_notifiers_prefix_throw nimpl pre post n v e Hpre Hn). done.
Qed.

Lemma callAction_notifier_throw_stops_witness :
  obj_actions three_notifier_state.2 (r_actions (build three_notifier_state.1)) !! "double"
    = Some double_action /\
  double_action (r_context (build three_notifier_state.1)) [JNum 5] = Fulfilled (JNum 10) /\
  notifier_set (build three_notifier_state.1) "double" three_notifier_state.2
    = ([2] ++ 1 :: [3])%list /\
  (forall m, m ∈ [2] -> exists p, sample_notifiers m (JNum 10) = NReturns p) /\
  sample_notifiers 1 (JNum 10) = NThrows (Thrown (JStr "notifier failed")) /\
  callAction sample_notifiers (build three_notifier_state.1) "double" [JNum 5] [2; 1; 3]
    three_notifier_state.2 =
    (EvCall "double" (r_context (build three_notifier_state.1)) [JNum 5] ::
       map (fun m => EvNotify m (JNum 10)) ([2] ++ [1]), inr (Thrown (JStr "notifier failed"))).
Proof.
  assert (H1 : obj_actions three_notifier_state.2 (r_actions (build three_notifier_state.1))
                 !! "double" = Some double_action) by reflexivity.
  assert (H2 : double_action (r_context (build three_notifier_state.1)) [JNum 5]
                 = Fulfilled (JNum 10)) by reflexivity.
  assert (H3 : notifier_set (build three_notifier_state.1) "double" three_notifier_state.2
                 = ([2] ++ 1 :: [3])%list) by reflexivity.
  assert (H4 : forall m, m ∈ [2] -> exists p, sample_notifiers m (JNum 10) = NReturns p).
  { intros m Hm. apply elem_of_cons in Hm as [->|Hm]; [eexists; reflexivity|inversion Hm]. }
  assert (H5 : sample_notifiers 1 (JNum 10) = NThrows (Thrown (JStr "notifier failed")))
    by reflexivity.
  do 5 (split; [assumption|]).
  exact (callAction_notifier_throw_stops sample_notifiers (build three_notifier_state.1)
           "double" [JNum 5] [2; 1; 3] three_notifier_state.2 double_action (JNum 10)
           [2] [3] 1 (Thrown (JStr "notifier failed")) H1 H2 H3 H4 H5).
Defined.

(** [Promise.all] rejects with the first rejection in settlement order: when
    every notifier returns a promise, the ones settling first ([pre]) fulfil
    and the next one to settle, [n], rejects with [e], the call rejects with
    [e] as soon as [n] settles, without waiting for the rest; every notifier
    has been invoked once, in set order. *)
Theorem callAction_first_rejection_wins (nimpl : nref -> jsval -> nret) (r : BaseResource)
    (name : string) (args : list jsval) (h : heap) (f : Action) (v : jsval)
    (pre post : list nref) (n : nref) (e : jserror) :
  obj_actions h (r_actions r) !! name = Some f ->
  f (r_context r) args = Fulfilled v ->
  (pre ++ n :: post)%list ≡ₚ notifier_set r name h ->
  (forall m, m ∈ notifier_set r name h -> exists p, nimpl m v = NReturns p) ->
  (forall m, m ∈ pre -> exists w, nimpl m v = NReturns (Fulfilled w)) ->
  nimpl n v = NReturns (Rejected e) ->
  callAction nimpl r name args (pre ++ n :: post) h =
    (EvCall name (r_context r) args ::
       (map (fun m => EvNotify m v) (notifier_set r name h) ++ map EvSettled (pre ++ [n])),
     inr e).
Proof.
  intros Hf Hv Hperm Hret Hpre Hn.
  assert (Hne : notifier_set r name h <> []).
  { intros E. rewrite E in Hperm. apply Permutation_nil_r in Hperm. by destruct pre. }
  rewrite (callAction_notified nimpl r name args _ h f v _ Hf Hv
             (notifier_set_lookup r name h _ eq_refl Hne) Hne).
  unfold promise_all.
  destruct (invoke_notifiers_all_return nimpl _ v Hret) as [ps Hi].
  destruct (invoke_notifiers_inl nimpl _ _ _ _ Hi) as [_ Hps].
  rewrite Hi, bind_inl.
  rewrite (settle_all_prefix_reject pre post ps n e).
  - done.
  - intros m Hm. destruct (Hps m) as (p & Hp & Hs); [rewrite <- Hperm; set_solver|].
    destruct (Hpre m Hm) as [w Hw]. rewrite Hw in Hp. injection Hp as <-. eauto.
  - destruct (Hps n) as (p & Hp & Hs); [rewrite <- Hperm; set_solver|].
    rewrite Hn in Hp. injection Hp as <-. done.
Qed.

Lemma callAction_first_rejection_wins_witness :
  obj_actions three_notifier_state.2 (r_actions (build three_notifier_state.1)) !! "double"
    = Some double_action /\
  double_action (r_context (build three_notifier_state.1)) [JNum 5] = Fulfilled (JNum 10) /\
  ([3] ++ 1 :: [2])%list ≡ₚ notifier_set (build three_notifier_state.1) "double"
                              three_notifier_state.2 /\
  (forall m, m ∈ notifier_set (build three_notifier_state.1) "double" three_notifier_state.2 ->
     exists p, rejecting_notifiers m (JNum 10) = NReturns p) /\
  (forall m, m ∈ [3] -> exists w, rejecting_notifiers m (JNum 10) = NReturns (Fulfilled w)) /\
  rejecting_notifiers 1 (JNum 10) = NReturns (Rejected (Thrown (JStr "rejected"))) /\
  callAction rejecting_notifiers (build three_notifier_state.1) "double" [JNum 5]
    ([3] ++ 1 :: [2]) three_notifier_state.2 =
    (EvCall "double" (r_context (build three_notifier_state.1)) [JNum 5] ::
       (map (fun m => EvNotify m (JNum 10))
          (notifier_set (build three_notifier_state.1) "double" three_notifier_state.2) ++
        map EvSettled ([3] ++ [1])),
     inr (Thrown (JStr "rejected"))).
Proof.
  assert (H1 : obj_actions three_notifier_state.2 (r_actions (build three_notifier_state.1))
                 !! "double" = Some double_action) by reflexivity.
  assert (H2 : double_action (r_context (build three_notifier_state.1)) [JNum 5]
                 = Fulfilled (JNum 10)) by reflexivity.
  assert (H3 : ([3] ++ 1 :: [2])%list ≡ₚ notifier_set (build three_notifier_state.1) "double"
                                           three_notifier_state.2).
  { vm_compute. symmetry. exact (Permutation_rev [2; 1; 3]). }
  assert (H4 : forall m, m ∈ notifier_set (build three_notifier_state.1) "double"
                               three_notifier_state.2 ->
                 exists p, rejecting_notifiers m (JNum 10) = NReturns p).
  { intros m _. unfold rejecting_notifiers. destruct (Nat.eqb m 1); eexists; reflexivity. }
  assert (H5 : forall m, m ∈ [3] -> exists w, rejecting_notifiers m (JNum 10)
                                                = NReturns (Fulfilled w)).
  { intros m Hm. apply elem_of_cons in Hm as [->|Hm]; [eexists; reflexivity|inversion Hm]. }
  assert (H6 : rejecting_notifiers 1 (JNum 10) = NReturns (Rejected (Thrown (JStr "rejected"))))
    by reflexivity.
  do 6 (split; [assumption|]).
  exact (callAction_first_rejection_wins rejecting_notifiers (build three_notifier_state.1)
           "double" [JNum 5] three_notifier_state.2 double_action (JNum 10) [3] [2] 1
           (Thrown (JStr "rejected")) H1 H2 H3 H4 H5 H6).
Defined.

(** [addApi] stores [{method, route, action}] under the key [route], and
    nothing else writes the route object: in every state reached through
    builder calls, an entry returned by [getApi(route, method)] has [route]
    as its route and [method] as its method. *)
Theorem getApi_entry_matches_request (rname : string) (cs : list builder_call)
    (b : ResourceBuilder) (h : heap) (route : string) (m : Method) (api : Api) :
  run_calls cs (createResource rname empty_heap) = inl (b, h) ->
  getApi (build b) route m h = Some api ->
  api_route api = route /\ api_method api = m.
Proof.
  intros Hreach Hg. split; [|by apply getApi_method in Hg].
  pose proof (run_calls_routes_keyed cs _ _ Hreach (createResource_routes_keyed rname)) as Hk.
  cbn in Hk.
  apply getApi_Some in Hg. unfold obj_apis in Hg. cbn in Hg.
  destruct (h_apis h !! b_apis b) as [o|] eqn:E; cbn in Hg.
  - exact (Hk _ o route api E Hg).
  - by rewrite lookup_empty in Hg.
Qed.

Lemma getApi_entry_matches_request_witness :
  run_calls sample_calls (createResource "TestResource" empty_heap)
    = inl (sample_state.1, sample_state.2) /\
  getApi (build sample_state.1) "/double" POST sample_state.2
    = Some (mkApi POST "/double" "double") /\
  (api_route (mkApi POST "/double" "double") = "/double" /\
   api_method (mkApi POST "/double" "double") = POST).
Proof.
  assert (E : run_calls sample_calls (createResource "TestResource" empty_heap)
                = inl (sample_state.1, sample_state.2)) by reflexivity.
  assert (G : getApi (build sample_state.1) "/double" POST sample_state.2
                = Some (mkApi POST "/double" "double")) by reflexivity.
  split; [exact E|]. split; [exact G|].
  exact (getApi_entry_matches_request "TestResource" sample_calls _ _ "/double" POST _ E G).
Defined.

(** [createAction("__proto__", g)] on an action object whose prototype is
    [Object.prototype] (and which has no own [__proto__] property) registers
    no action: the [__proto__] setter of [Object.prototype] makes [g] the
    prototype, and the own actions are unchanged.  Afterwards a name with no
    own action is read from [g]'s chain when that chain has it, and a later
    [createAction] of such a name throws: a [TypeError] when the chain holds
    it read-only (as the [length] and [name] of every function), the
    setter's error when it holds a throwing accessor. *)
Theorem createAction_proto_sets_prototype (b : ResourceBuilder) (h : heap) (g : Action) :
  h_action_protos h !! b_actions b = None ->
  obj_actions h (b_actions b) !! "__proto__" = None ->
  exists h', createAction b "__proto__" g h = inl (b, h') /\
    h_action_protos h' !! b_actions b = Some g /\
    obj_actions h' (b_actions b) = obj_actions h (b_actions b) /\
    (forall name p, obj_actions h (b_actions b) !! name = None -> act_props g name = Some p ->
       getAction (build b) name h' = Some (FromFunction p)) /\
    (forall name f v, obj_actions h (b_actions b) !! name = None ->
       act_props g name = Some (FnData false v) -> createAction b name f h' = inr TypeError) /\
    (forall name f get e, obj_actions h (b_actions b) !! name = None ->
       act_props g name = Some (FnAccessor get (Some e)) -> createAction b name f h' = inr e).
Proof.
  intros Hp Ho.
  assert (Hs : actions_set h (b_actions b) "__proto__" = SetPrototype)
    by (unfold actions_set, fn_chain; by rewrite Ho, Hp).
  exists (set_action_proto h (b_actions b) g).
  split; [unfold createAction; by rewrite Hs|].
  split; [apply h_action_protos_set_action_proto|].
  split; [apply obj_actions_set_action_proto|].
  split; [|split].
  - intros name p Hn Hg. unfold getAction, fn_chain. cbn [build r_actions].
    by rewrite obj_actions_set_action_proto, Hn, h_action_protos_set_action_proto, Hg.
  - intros name f v Hn Hv. unfold createAction, actions_set, fn_chain.
    by rewrite obj_actions_set_action_proto, Hn, h_action_protos_set_action_proto, Hv.
  - intros name f get e Hn He. unfold createAction, actions_set, fn_chain.
    by rewrite obj_actions_set_action_proto, Hn, h_action_protos_set_action_proto, He.
Qed.

Lemma createAction_proto_sets_prototype_witness :
  h_action_protos (createResource "user" empty_heap).2
    !! b_actions (createResource "user" empty_heap).1 = None /\
  obj_actions (createResource "user" empty_heap).2
    (b_actions (createResource "user" empty_heap).1) !! "__proto__" = None /\
  exists h', createAction (createResource "user" empty_heap).1 "__proto__" double_action
               (createResource "user" empty_heap).2
               = inl ((createResource "user" empty_heap).1, h') /\
    h_action_protos h' !! b_actions (createResource "user" empty_heap).1 = Some double_action /\
    obj_actions h' (b_actions (createResource "user" empty_heap).1) =
      obj_actions (createResource "user" empty_heap).2
        (b_actions (createResource "user" empty_heap).1) /\
    (forall name p, obj_actions (createResource "user" empty_heap).2
                      (b_actions (createResource "user" empty_heap).1) !! name = None ->
       act_props double_action name = Some p ->
       getAction (build (createResource "user" empty_heap).1) name h' = Some (FromFunction p)) /\
    (forall name f v, obj_actions (createResource "user" empty_heap).2
                        (b_actions (createResource "user" empty_heap).1) !! name = None ->
       act_props double_action name = Some (FnData false v) ->
       createAction (createResource "user" empty_heap).1 name f h' = inr TypeError) /\
    (forall name f get e, obj_actions (createResource "user" empty_heap).2
                            (b_actions (createResource "user" empty_heap).1) !! name = None ->
       act_props double_action name = Some (FnAccessor get (Some e)) ->
       createAction (createResource "user" empty_heap).1 name f h' = inr e).
Proof.
  assert (P : h_action_protos (createResource "user" empty_heap).2
                !! b_actions (createResource "user" empty_heap).1 = None) by reflexivity.
  assert (O : obj_actions (createResource "user" empty_heap).2
                (b_actions (createResource "user" empty_heap).1) !! "__proto__" = None)
    by reflexivity.
  split; [exact P|]. split; [exact O|].
  exact (createAction_proto_sets_prototype (createResource "user" empty_heap).1
           (createResource "user" empty_heap).2 double_action P O).
Defined.

(** The chain [createAction("__proto__", double).createAction("run", double)]
    runs: the first call makes [double] the prototype of the action object,
    the second defines [run] as an own action (no [run] on the chain).  On
    the built resource [run] works, but names of [Function.prototype] and of
    [double] itself now resolve: [callAction("call")] invokes
    [Function.prototype.call] with [this] undefined and rejects with a
    [TypeError]; [length] is [2], not callable, so a [TypeError] as well;
    [name] is [""], falsy, so "Action name not found"; reading [arguments]
    throws.  [getAction("__proto__")] returns [double], and a later
    [createAction("length", ...)] throws a [TypeError], since [length] is
    read-only on the chain. *)
Theorem proto_chain_sample :
  run_calls proto_calls (createResource "TestResource" empty_heap)
    = inl (proto_state.1, proto_state.2) /\
  getAction (build proto_state.1) "__proto__" proto_state.2 = Some (ProtoGetter double_action) /\
  callAction sample_notifiers (build proto_state.1) "run" [JNum 3] [] proto_state.2
    = ([EvCall "run" (JObj 0) [JNum 3]], inl (JNum 6)) /\
  callAction sample_notifiers (build proto_state.1) "call" [JNum 3] [] proto_state.2
    = ([EvCall "call" (JObj 0) [JNum 3]], inr TypeError) /\
  callAction sample_notifiers (build proto_state.1) "length" [] [] proto_state.2
    = ([], inr TypeError) /\
  callAction sample_notifiers (build proto_state.1) "name" [] [] proto_state.2
    = ([], inr (Error ("Action " ++ "name" ++ " not found"))) /\
  callAction sample_notifiers (build proto_state.1) "arguments" [] [] proto_state.2
    = ([], inr TypeError) /\
  createAction proto_state.1 "length" echo_action proto_state.2 = inr TypeError.
Proof. repeat split. Qed.
